(** * spotify-backup: the API client, the capture server and the text writer

    A shallow embedding of [spotify-backup.py].  Python values that come out
    of [json.load] are terms of [json]; a Python computation is a function
    from a [world] to a [result] and a new world.  The world carries what the
    script can observe of its environment (how many requests were sent, the
    clock, the inbound connections of the capture server) and the [trace] of
    everything the script did to it, in order. *)

From stdpp Require Import base list strings.
From Stdlib Require Import ZArith NArith Lia Ascii DecimalString.
From Stdlib Require Import Permutation.

Open Scope string_scope.
Open Scope nat_scope.
Open Scope list_scope.

(** ** Values *)

(** What [json.load] returns: [None], [bool], [int], [str], [list], [dict].
    A dict keeps its keys in insertion order, so it is an association list
    whose keys are pairwise distinct.  JSON floats are left out. *)
#[warnings="-register-all"]
Inductive json :=
| JNull
| JBool (b : bool)
| JNum (n : Z)
| JStr (s : string)
| JArr (elems : list json)
| JObj (fields : list (string * json)).

(** The exception classes that occur.  [SystemExit] and [KeyboardInterrupt]
    derive from [BaseException] only; the others derive from [Exception].
    [UnicodeEncodeError] is what [print] raises for a character that the
    output stream cannot encode, [MarkupError] what [console.print] of rich
    raises for a closing tag that closes nothing. *)
Inductive exn :=
| SystemExit (code : nat)
| KeyboardInterrupt
| KeyError (key : string)
| TypeError
| AttributeError
| Authorization (access_token : string)
| UnicodeEncodeError
| MarkupError.

Definition is_Exception (e : exn) : bool :=
  match e with
  | SystemExit _ | KeyboardInterrupt => false
  | _ => true
  end.

(** How a computation ends: with a value, with an exception, or not at all
    (a loop out of fuel, a server waiting for a connection that never
    comes). *)
Inductive result (A : Type) :=
| Ret (a : A)
| Raise (e : exn)
| Diverge.
Arguments Ret {A} a.
Arguments Raise {A} e.
Arguments Diverge {A}.

(** An f-string is kept as its pieces: the literal text and the values that
    are interpolated, in order. *)
Inductive frag :=
| Lit (s : string)
| FNat (n : nat)
| FStr (s : string)
| FVal (j : json)
| FExn (e : exn).

(** What [urllib.request.urlopen] followed by [json.load] does with one
    request: a decoded body, or one of the exceptions [get] distinguishes. *)
Inductive reply :=
| Body (j : json)
| HTTPError (code : nat) (reason : string)
| URLError (reason : string)
| JSONDecodeError (msg : string)
| OtherError (msg : string).

(** What reaches the capture server while it listens. *)
Inductive inbound_event :=
| InGET (path : string)
| InInterrupt.

Inductive event :=
| EvLog (message : list frag) (style : option string)
| EvRequest (url : string) (authorization : string)
| EvSleep (secs : nat)
| EvWrite (chunk : list frag)
| EvBrowser (url : string)
| EvServerBind (host : string) (port : N)
| EvSendResponse (code : nat)
| EvSendHeader (keyword value : string)
| EvEndHeaders
| EvWfileWrite (body : string)
| EvSendError (code : nat)
| EvServerClose
| EvProgressAdvance.

(** [sent] counts the requests made so far, [now] is the clock in seconds,
    [inbound] holds the connections the capture server has not yet taken, and
    [trace] is what the script has done, oldest event first. *)
Record world := World {
  sent : nat;
  now : nat;
  inbound : list inbound_event;
  trace : list event
}.

(** The remote side: the reply to the [n]-th request of the run (counted from
    0) as a function of the URL and of the [Authorization] header, and the
    seconds that request takes. *)
Class Network := {
  respond : nat -> string -> string -> reply;
  latency : nat -> nat
}.

(** ** The monad of computations *)

Definition M (A : Type) : Type := world -> result A * world.

Definition ret {A} (a : A) : M A := fun w => (Ret a, w).

Definition bind {A B} (m : M A) (k : A -> M B) : M B := fun w =>
  match m w with
  | (Ret a, w') => k a w'
  | (Raise e, w') => (Raise e, w')
  | (Diverge, w') => (Diverge, w')
  end.

#[global] Instance M_ret : MRet M := @ret.
#[global] Instance M_bind : MBind M := fun A B k m => bind m k.

Definition raise {A} (e : exn) : M A := fun w => (Raise e, w).
Definition diverge {A} : M A := fun w => (Diverge, w).

Definition lift {A} (r : result A) : M A := fun w => (r, w).

Definition emit (e : event) : M unit := fun w =>
  (Ret tt, World (sent w) (now w) (inbound w) (trace w ++ [e])).

(** [try: m except <classes>: h] *)
Definition try_except {A} (m : M A) (catches : exn -> bool) (h : exn -> M A) : M A :=
  fun w =>
    match m w with
    | (Raise e, w') => if catches e then h e w' else (Raise e, w')
    | other => other
    end.

(** [try: m finally: fin] *)
Definition try_finally {A} (m : M A) (fin : M unit) : M A := fun w =>
  match m w with
  | (Diverge, w') => (Diverge, w')
  | (r, w') =>
      match fin w' with
      | (Ret _, w'') => (r, w'')
      | (Raise e, w'') => (Raise e, w'')
      | (Diverge, w'') => (Diverge, w'')
      end
  end.

Definition when (b : bool) (m : M unit) : M unit := if b then m else ret tt.

(** ** Library calls *)

(** [log_message] (lines 37-45) on a message that the console prints: the
    message goes to the console, with or without [rich].  This is the case of
    the messages that are made of the script's own text, of numbers, of URLs
    and of reason phrases. *)
Definition log_message (message : list frag) (style : option string) : M unit :=
  emit (EvLog message style).

(** The console of the run.  [console.print] and [print] do not take every
    message: [print] raises [UnicodeEncodeError] when the stream cannot
    encode a character of it, and rich raises [MarkupError] when the message
    holds a closing tag without its opening tag.  [refuses] is the exception
    that printing the message raises on this console, [None] when the message
    is printed. *)
Class Console := {
  refuses : list frag -> option exn
}.

(** [log_message] (lines 37-45) on a message that carries text from outside
    the script: the name of a playlist, the display name of the user, a part
    of a file name.  The console may refuse it, and then nothing is
    printed. *)
Definition log_text {con : Console} (message : list frag) (style : option string) : M unit :=
  match refuses message with
  | Some e => raise e
  | None => log_message message style
  end.

(** [sys.exit(code)] raises [SystemExit]. *)
Definition sys_exit {A} (code : nat) : M A := raise (SystemExit code).

(** [time.time()], in whole seconds; only the progress line of [list]
    depends on it. *)
Definition time_time : M nat := fun w => (Ret (now w), w).

Definition time_sleep (secs : nat) : M unit := fun w =>
  (Ret tt, World (sent w) (now w + secs) (inbound w) (trace w ++ [EvSleep secs])).

Section Urlopen.
Context {net : Network}.

(** [json.load(reader(urllib.request.urlopen(req)))] with the one header
    the script sets. *)
Definition urlopen_json (url authorization : string) : M reply := fun w =>
  (Ret (respond (sent w) url authorization),
   World (S (sent w)) (now w + latency (sent w)) (inbound w)
         (trace w ++ [EvRequest url authorization])).
End Urlopen.

(** ** Python's operations on decoded values *)

(** [bool(v)] *)
Definition truthy (v : json) : bool :=
  match v with
  | JNull => false
  | JBool b => b
  | JNum n => negb (n =? 0)%Z
  | JStr s => negb (String.eqb s "")
  | JArr l => match l with [] => false | _ => true end
  | JObj kv => match kv with [] => false | _ => true end
  end.

Fixpoint assoc (k : string) (kv : list (string * json)) : option json :=
  match kv with
  | [] => None
  | (k', v) :: rest => if String.eqb k k' then Some v else assoc k rest
  end.

(** [v[k]] for a string key [k] *)
Definition getitem (v : json) (k : string) : result json :=
  match v with
  | JObj kv => match assoc k kv with Some x => Ret x | None => Raise (KeyError k) end
  | _ => Raise TypeError
  end.

Fixpoint assoc_set (k : string) (x : json) (kv : list (string * json)) : list (string * json) :=
  match kv with
  | [] => [(k, x)]
  | (k', v) :: rest => if String.eqb k k' then (k', x) :: rest else (k', v) :: assoc_set k x rest
  end.

(** [v[k] = x] for a string key [k]; the value is the object after the
    assignment. *)
Definition setitem (v : json) (k : string) (x : json) : result json :=
  match v with
  | JObj kv => Ret (JObj (assoc_set k x kv))
  | _ => Raise TypeError
  end.

Fixpoint chars (s : string) : list json :=
  match s with
  | EmptyString => []
  | String c s' => JStr (String c EmptyString) :: chars s'
  end.

(** [iter(v)], run to the end *)
Definition py_iter (v : json) : result (list json) :=
  match v with
  | JArr l => Ret l
  | JStr s => Ret (chars s)
  | JObj kv => Ret (map (fun p => JStr (fst p)) kv)
  | _ => Raise TypeError
  end.

(** [len(v)] *)
Definition py_len (v : json) : result nat :=
  match v with
  | JArr l => Ret (length l)
  | JStr s => Ret (String.length s)
  | JObj kv => Ret (length kv)
  | _ => Raise TypeError
  end.

Definition int_of (v : json) : option Z :=
  match v with
  | JNum n => Some n
  | JBool b => Some (if b then 1 else 0)%Z
  | _ => None
  end.

(** [a += b], the value [a] is bound to afterwards *)
Definition iadd (a b : json) : result json :=
  match a with
  | JArr l => match py_iter b with
              | Ret more => Ret (JArr (l ++ more))
              | Raise e => Raise e
              | Diverge => Diverge
              end
  | JStr s => match b with JStr t => Ret (JStr (s +:+ t)) | _ => Raise TypeError end
  | JNum _ | JBool _ =>
      match int_of a, int_of b with
      | Some x, Some y => Ret (JNum (x + y))
      | _, _ => Raise TypeError
      end
  | JNull | JObj _ => Raise TypeError
  end.

Fixpoint join_strs (sep : string) (l : list string) : string :=
  match l with
  | [] => ""
  | [s] => s
  | s :: rest => s +:+ sep +:+ join_strs sep rest
  end.

Fixpoint all_strs (l : list json) : option (list string) :=
  match l with
  | [] => Some []
  | JStr s :: rest => match all_strs rest with Some ss => Some (s :: ss) | None => None end
  | _ :: _ => None
  end.

(** [sep.join(l)] for a list [l] that is already built *)
Definition py_join (sep : string) (l : list json) : result string :=
  match all_strs l with
  | Some ss => Ret (join_strs sep ss)
  | None => Raise TypeError
  end.

(** ** Strings and URLs *)

Definition CR : ascii := ascii_of_nat 13.
Definition LF : ascii := ascii_of_nat 10.
Definition CRLF : string := String CR (String LF EmptyString).
Definition TAB : string := String (ascii_of_nat 9) EmptyString.
Definition DQUOTE : string := String (ascii_of_nat 34) EmptyString.

(** [c in s] for a single character [c] *)
Fixpoint has_char (c : ascii) (s : string) : bool :=
  match s with
  | EmptyString => false
  | String c' s' => if Ascii.eqb c c' then true else has_char c s'
  end.

Definition str_of_N (n : N) : string := NilEmpty.string_of_uint (N.to_uint n).

Definition is_digit (c : ascii) : bool :=
  let n := nat_of_ascii c in (48 <=? n) && (n <=? 57).
Definition is_upper (c : ascii) : bool :=
  let n := nat_of_ascii c in (65 <=? n) && (n <=? 90).
Definition is_lower (c : ascii) : bool :=
  let n := nat_of_ascii c in (97 <=? n) && (n <=? 122).

(** The characters [urllib.parse.quote] never escapes. *)
Definition always_safe (c : ascii) : bool :=
  is_digit c || is_upper c || is_lower c || has_char c "_.-~".

Definition hex_digit (n : nat) : ascii :=
  if n <? 10 then ascii_of_nat (48 + n) else ascii_of_nat (55 + n).

(** [urllib.parse.quote_plus(s)], on the bytes of [s] *)
Fixpoint quote_plus (s : string) : string :=
  match s with
  | EmptyString => EmptyString
  | String c s' =>
      if always_safe c then String c (quote_plus s')
      else if Ascii.eqb c " " then String "+" (quote_plus s')
      else let n := nat_of_ascii c in
           String "%" (String (hex_digit (n / 16)) (String (hex_digit (n mod 16)) (quote_plus s')))
  end.

(** [urllib.parse.urlencode(params)]; the values are already strings. *)
Definition urlencode (params : list (string * string)) : string :=
  join_strs "&" (map (fun kv => quote_plus (fst kv) +:+ "=" +:+ quote_plus (snd kv)) params).

(** ** class SpotifyAPI *)

Module SpotifyAPI.

Record t := { _auth : string }.

Definition API : string := "https://api.spotify.com/v1/".

Section Client.
Context {net : Network}.

(** The body of one [except] clause of [get] (lines 70-92); the reply is
    the exception that [urlopen] or [json.load] raised. *)
Definition on_error (url : string) (tries attempt : nat) (r : reply) : M unit :=
  match r with
  | Body _ => mret tt
  | HTTPError code reason =>
      if code =? 401 then
        log_message [Lit "Authentication failed. Check your OAuth token."] (Some "red bold");;
        sys_exit 1
      else if code =? 429 then
        log_message [Lit "Rate limited. Waiting longer before retry..."] (Some "yellow");;
        time_sleep (10 * (attempt + 1))
      else
        log_message [Lit "HTTP error "; FNat code; Lit ": "; FStr reason;
                     Lit " for URL: "; FStr url] (Some "red");;
        when (attempt <? tries - 1) (time_sleep (2 * (attempt + 1)))
  | URLError reason =>
      log_message [Lit "Network error: "; FStr reason; Lit " for URL: "; FStr url]
                  (Some "red");;
      when (attempt <? tries - 1) (time_sleep (2 * (attempt + 1)))
  | JSONDecodeError msg =>
      log_message [Lit "Invalid JSON response from URL: "; FStr url; Lit " ("; FStr msg;
                   Lit ")"] (Some "red bold");;
      when (attempt <? tries - 1) (time_sleep 2)
  | OtherError msg =>
      log_message [Lit "Unexpected error: "; FStr msg; Lit " for URL: "; FStr url]
                  (Some "red");;
      when (attempt <? tries - 1) (time_sleep 2)
  end.

(** [for attempt in range(tries)], entered at [attempt] with [remaining]
    iterations to go (lines 63-98). *)
Fixpoint attempts (self : t) (url : string) (tries attempt remaining : nat) : M json :=
  match remaining with
  | 0 =>
      log_message [Lit "Failed to load URL after "; FNat tries; Lit " attempts: "; FStr url]
                  (Some "red bold");;
      sys_exit 1
  | S remaining' =>
      r ← urlopen_json url ("Bearer " +:+ _auth self);
      match r with
      | Body j => mret j
      | _ =>
          on_error url tries attempt r;;
          when (attempt <? tries - 1)
               (log_message [Lit "Retrying... (attempt "; FNat (attempt + 2); Lit "/";
                             FNat tries; Lit ")"] (Some "yellow"));;
          attempts self url tries (S attempt) remaining'
      end
  end.

(** The URL that [get] requests (lines 57-60). *)
Definition full_url (url : string) (params : list (string * string)) : string :=
  let url := if String.prefix API url then url else API +:+ url in
  match params with
  | [] => url
  | _ => url +:+ (if has_char "?" url then "&" else "?") +:+ urlencode params
  end.

Definition get (self : t) (url : json) (params : list (string * string)) (tries : nat)
  : M json :=
  match url with
  | JStr url => attempts self (full_url url params) tries 0 tries
  | _ => raise AttributeError
  end.

(** The [while response['next']] loop of [list] (lines 107-113); [fuel]
    bounds the number of further pages. *)
Fixpoint pages (fuel : nat) (self : t) (last_log_time : nat) (response items : json)
  : M json :=
  next ← lift (getitem response "next");
  if truthy next then
    match fuel with
    | 0 => diverge
    | S fuel' =>
        t0 ← time_time;
        last_log_time ←
          (if last_log_time + 15 <? t0 then
             t1 ← time_time;
             n ← lift (py_len items);
             total ← lift (getitem response "total");
             log_message [Lit "Loaded "; FNat n; Lit "/"; FVal total; Lit " items"]
                         (Some "cyan");;
             mret t1
           else mret last_log_time);
        next ← lift (getitem response "next");
        response ← get self next [] 3;
        more ← lift (getitem response "items");
        items ← lift (iadd items more);
        pages fuel' self last_log_time response items
    end
  else mret items.

Definition list (fuel : nat) (self : t) (url : json) (params : Datatypes.list (string * string))
  : M json :=
  last_log_time ← time_time;
  response ← get self url params 3;
  items ← lift (getitem response "items");
  pages fuel self last_log_time response items.

End Client.

(** *** The capture server (lines 116-185) *)

Definition _SERVER_PORT : N := 43019.

Definition redirect_page : string :=
  "<script>location.replace(" +:+ DQUOTE +:+ "token?" +:+ DQUOTE
    +:+ " + location.hash.slice(1));</script>".

Definition thanks_page : string :=
  "<script>close()</script>Thanks! You may now close this window.".

(** What the group of the pattern matches: the characters up to the first
    ampersand. *)
Fixpoint until_amp (s : string) : string :=
  match s with
  | EmptyString => EmptyString
  | String c s' => if Ascii.eqb c "&" then EmptyString else String c (until_amp s')
  end.

(** [s] without the prefix [p], when [s] starts with [p]. *)
Fixpoint strip_prefix (p s : string) : option string :=
  match p, s with
  | EmptyString, _ => Some s
  | String a p', String b s' => if Ascii.eqb a b then strip_prefix p' s' else None
  | String _ _, EmptyString => None
  end.

(** [re.search] for the literal [access_token=] followed by a group of
    non-ampersand characters: group 1 of the leftmost match. *)
Fixpoint search_access_token (s : string) : option string :=
  match strip_prefix "access_token=" s with
  | Some rest => Some (until_amp rest)
  | None =>
      match s with
      | EmptyString => None
      | String _ s' => search_access_token s'
      end
  end.

(** [_AuthorizationHandler.do_GET] (lines 152-177) *)
Definition do_GET (path : string) : M unit :=
  if String.prefix "/redirect" path then
    emit (EvSendResponse 200);;
    emit (EvSendHeader "Content-Type" "text/html");;
    emit EvEndHeaders;;
    emit (EvWfileWrite redirect_page)
  else if String.prefix "/token?" path then
    emit (EvSendResponse 200);;
    emit (EvSendHeader "Content-Type" "text/html");;
    emit EvEndHeaders;;
    emit (EvWfileWrite thanks_page);;
    match search_access_token path with
    | None => emit (EvSendError 400)
    | Some access_token =>
        log_message [Lit "Received access token from Spotify"] (Some "green");;
        raise (Authorization access_token)
    end
  else
    emit (EvSendError 404).

(** [server.handle_request()]: take the next connection and run the
    handler on it.  [handle_error] re-raises, so whatever the handler raises
    leaves [handle_request]. *)
Definition handle_request : M unit := fun w =>
  match inbound w with
  | [] => (Diverge, w)
  | InGET path :: rest => do_GET path (World (sent w) (now w) rest (trace w))
  | InInterrupt :: rest => (Raise KeyboardInterrupt, World (sent w) (now w) rest (trace w))
  end.

(** [while True: server.handle_request()], for as many connections as are
    pending; once they are used up the next [handle_request] waits. *)
Fixpoint serve (pending : nat) : M unit :=
  match pending with
  | 0 => handle_request
  | S pending' => handle_request;; serve pending'
  end.

(** [SpotifyAPI.authorize] (lines 118-137) *)
Definition authorize (client_id scope : string) : M t :=
  let url := "https://accounts.spotify.com/authorize?" +:+ urlencode
    [("response_type", "token");
     ("client_id", client_id);
     ("scope", scope);
     ("redirect_uri", "http://127.0.0.1:" +:+ str_of_N _SERVER_PORT +:+ "/redirect")] in
  log_message [Lit "[bold blue]Logging in[/bold blue] (click if it doesn't open automatically):"]
              None;;
  log_message [Lit "[link]"; FStr url; Lit "[/link]"] (Some "blue");;
  emit (EvBrowser url);;
  emit (EvServerBind "127.0.0.1" _SERVER_PORT);;
  try_finally
    (try_except
       (fun w => (serve (length (inbound w));; diverge) w)
       (fun e => match e with Authorization _ => true | _ => false end)
       (fun e => match e with
                 | Authorization access_token => mret {| _auth := access_token |}
                 | _ => raise e
                 end))
    (emit EvServerClose).

End SpotifyAPI.

(** ** Loading the tracks of the playlists *)

Section Loading.
Context {net : Network} {con : Console}.

(** What line 191 logs and what line 192 evaluates on its right-hand side:
    the track list that is about to be stored. *)
Definition fetch_tracks (fuel : nat) (spotify : SpotifyAPI.t) (playlist : json) : M json :=
  name ← lift (getitem playlist "name");
  tracks ← lift (getitem playlist "tracks");
  total ← lift (getitem tracks "total");
  log_text [Lit "Loading playlist: [bold]"; FVal name; Lit "[/bold] ("; FVal total;
            Lit " songs)"] (Some "cyan");;
  tracks ← lift (getitem playlist "tracks");
  href ← lift (getitem tracks "href");
  SpotifyAPI.list fuel spotify href [("limit", "100")].

(** [load_playlist_tracks] (lines 188-196).  The assignment to
    [playlist['tracks']] changes the playlist object itself; the value
    returned here is that object as it is afterwards. *)
Definition load_playlist_tracks (fuel : nat) (spotify : SpotifyAPI.t) (playlist : json)
  : M json :=
  try_except
    (items ← fetch_tracks fuel spotify playlist;
     lift (setitem playlist "tracks" items))
    is_Exception
    (fun e =>
       name ← lift (getitem playlist "name");
       log_text [Lit "Error loading playlist "; FVal name; Lit ": "; FExn e] (Some "red");;
       mret playlist).

(** The fallback of [main] (lines 327-328): one playlist after the other.
    The list that results holds the playlist objects as the calls left
    them. *)
Fixpoint load_sequentially (fuel : nat) (spotify : SpotifyAPI.t) (playlist_data : list json)
  : M (list json) :=
  match playlist_data with
  | [] => mret []
  | playlist :: rest =>
      playlist' ← load_playlist_tracks fuel spotify playlist;
      rest' ← load_sequentially fuel spotify rest;
      mret (playlist' :: rest')
  end.

(** The tasks that are still in the pool when [future.result()] raises in
    the main thread.  The exception leaves the [with] block of the executor,
    whose exit waits for every task that was submitted: the tasks run to
    their end, and what they return or raise is kept in their futures, which
    nobody reads any more. *)
Fixpoint drain (fuel : nat) (spotify : SpotifyAPI.t) (completion : list nat)
         (playlist_data : list json) : M unit :=
  match completion with
  | [] => mret tt
  | i :: completion' =>
      match playlist_data !! i with
      | None => drain fuel spotify completion' playlist_data
      | Some playlist =>
          fun w =>
            match load_playlist_tracks fuel spotify playlist w with
            | (Diverge, w') => (Diverge, w')
            | (_, w') => drain fuel spotify completion' playlist_data w'
            end
      end
  end.

(** The thread pool of [main] (lines 320-324).  Every playlist of
    [playlist_data] is submitted; [completion] is the order in which the
    futures complete, as positions in [playlist_data].  A worker shares with
    the others only the credential, which it reads, and writes only its own
    playlist, so the tasks are run here one after the other in completion
    order, each on the object at its position.  What a task raises, also a
    [SystemExit], is kept in its future; [future.result()] raises it again in
    the main thread, which then waits for the tasks that are left before the
    exception goes on. *)
Fixpoint load_in_pool (fuel : nat) (spotify : SpotifyAPI.t) (completion : list nat)
         (playlist_data : list json) : M (list json) :=
  match completion with
  | [] => mret playlist_data
  | i :: completion' =>
      match playlist_data !! i with
      | None => load_in_pool fuel spotify completion' playlist_data
      | Some playlist =>
          fun w =>
            match load_playlist_tracks fuel spotify playlist w with
            | (Ret playlist', w') =>
                (emit EvProgressAdvance;;
                 load_in_pool fuel spotify completion' (<[i := playlist']> playlist_data)) w'
            | (Raise e, w') => (drain fuel spotify completion' playlist_data;; raise e) w'
            | (Diverge, w') => (Diverge, w')
            end
      end
  end.
End Loading.

(** ** The text writer of [main] (lines 361-405) *)

Fixpoint for_each {A} (l : list A) (body : A -> M unit) : M unit :=
  match l with
  | [] => mret tt
  | x :: rest => body x;; for_each rest body
  end.

(** [for i, x in enumerate(l, start)] *)
Fixpoint for_each_from {A} (start : nat) (l : list A) (body : nat -> A -> M unit) : M unit :=
  match l with
  | [] => mret tt
  | x :: rest => body start x;; for_each_from (S start) rest body
  end.

(** A list comprehension [[f(x) for x in l]] *)
Fixpoint comprehension {A B} (f : A -> M B) (l : list A) : M (list B) :=
  match l with
  | [] => mret []
  | x :: rest => y ← f x; ys ← comprehension f rest; mret (y :: ys)
  end.

Fixpoint replace_char (a b : ascii) (s : string) : string :=
  match s with
  | EmptyString => EmptyString
  | String c s' => String (if Ascii.eqb c a then b else c) (replace_char a b s')
  end.

Definition to_upper (c : ascii) : ascii :=
  if is_lower c then ascii_of_nat (nat_of_ascii c - 32) else c.
Definition to_lower (c : ascii) : ascii :=
  if is_upper c then ascii_of_nat (nat_of_ascii c + 32) else c.

(** [str.title()] on ASCII text: a letter is upper-cased when the character
    before it is not a letter, and lower-cased otherwise. *)
Fixpoint title_from (after_letter : bool) (s : string) : string :=
  match s with
  | EmptyString => EmptyString
  | String c s' =>
      let letter := is_upper c || is_lower c in
      String (if letter then (if after_letter then to_lower c else to_upper c) else c)
             (title_from letter s')
  end.

Definition title (s : string) : string := title_from false s.

Definition f_write (chunk : list frag) : M unit := emit (EvWrite chunk).

(** [', '.join([artist['name'] for artist in artists])] *)
Definition artist_names (artists : json) : M string :=
  l ← lift (py_iter artists);
  names ← comprehension (fun artist => lift (getitem artist "name")) l;
  lift (py_join ", " names).

Definition write_playlist_track (track : json) : M unit :=
  t ← lift (getitem track "track");
  match t with
  | JNull => mret tt
  | _ =>
      t ← lift (getitem track "track");
      uri ← lift (getitem t "uri");
      t ← lift (getitem track "track");
      name ← lift (getitem t "name");
      t ← lift (getitem track "track");
      artists ← lift (getitem t "artists");
      artists ← artist_names artists;
      t ← lift (getitem track "track");
      album ← lift (getitem t "album");
      album ← lift (getitem album "name");
      t ← lift (getitem track "track");
      release ← lift (getitem t "album");
      release_date ← lift (getitem release "release_date");
      f_write [FVal name; Lit TAB; FStr artists; Lit TAB; FVal album; Lit TAB; FVal uri;
               Lit TAB; FVal release_date; Lit CRLF]
  end.

Definition write_playlist (playlist : json) : M unit :=
  name ← lift (getitem playlist "name");
  match name with
  | JStr name => f_write [FStr name; Lit CRLF]
  | _ => raise TypeError
  end;;
  tracks ← lift (getitem playlist "tracks");
  tracks ← lift (py_iter tracks);
  for_each tracks write_playlist_track;;
  f_write [Lit CRLF].

Definition write_liked_album (album : json) : M unit :=
  a ← lift (getitem album "album");
  uri ← lift (getitem a "uri");
  a ← lift (getitem album "album");
  name ← lift (getitem a "name");
  a ← lift (getitem album "album");
  artists ← lift (getitem a "artists");
  artists ← artist_names artists;
  a ← lift (getitem album "album");
  release_date ← lift (getitem a "release_date");
  f_write [FVal name; Lit TAB; FStr artists; Lit TAB; Lit "-"; Lit TAB; FVal uri; Lit TAB;
           FVal release_date; Lit CRLF].

Definition write_top_artist (i : nat) (artist : json) : M unit :=
  name ← lift (getitem artist "name");
  genres ← lift (getitem artist "genres");
  genres ←
    (if truthy genres then
       genres ← lift (getitem artist "genres");
       genres ← lift (py_iter genres);
       lift (py_join ", " genres)
     else mret "No genres");
  followers ← lift (getitem artist "followers");
  followers ← lift (getitem followers "total");
  uri ← lift (getitem artist "uri");
  f_write [FNat i; Lit TAB; FVal name; Lit TAB; FStr genres; Lit TAB; FVal followers;
           Lit " followers"; Lit TAB; FVal uri; Lit CRLF].

Definition write_top_track (i : nat) (track : json) : M unit :=
  name ← lift (getitem track "name");
  artists ← lift (getitem track "artists");
  artists ← artist_names artists;
  album ← lift (getitem track "album");
  album ← lift (getitem album "name");
  uri ← lift (getitem track "uri");
  release ← lift (getitem track "album");
  release_date ← lift (getitem release "release_date");
  f_write [FNat i; Lit TAB; FVal name; Lit TAB; FStr artists; Lit TAB; FVal album; Lit TAB;
           FVal uri; Lit TAB; FVal release_date; Lit CRLF].

(** The heading of a top-items section. *)
Definition top_heading (what time_range : string) : list frag :=
  [Lit CRLF; Lit "Top "; Lit what; Lit " ("; FStr (title (replace_char "_" " " time_range));
   Lit "): "; Lit CRLF; Lit CRLF].

(** The [else] branch of the [with open(...)] block: the tab-separated
    file. *)
Definition write_text (playlists : list json) (liked_albums top_artists top_tracks : json)
           (time_range : string) : M unit :=
  f_write [Lit "Playlists: "; Lit CRLF; Lit CRLF];;
  for_each playlists write_playlist;;
  n ← lift (py_len liked_albums);
  if 0 <? n then
    f_write [Lit "Liked Albums: "; Lit CRLF; Lit CRLF];;
    albums ← lift (py_iter liked_albums);
    for_each albums write_liked_album;;
    n ← lift (py_len top_artists);
    (if 0 <? n then
       f_write (top_heading "Artists" time_range);;
       artists ← lift (py_iter top_artists);
       for_each_from 1 artists write_top_artist
     else mret tt);;
    n ← lift (py_len top_tracks);
    (if 0 <? n then
       f_write (top_heading "Tracks" time_range);;
       tracks ← lift (py_iter top_tracks);
       for_each_from 1 tracks write_top_track
     else mret tt)
  else mret tt.

(** ** Reading a trace *)

Definition is_request (e : event) : bool :=
  match e with EvRequest _ _ => true | _ => false end.

Definition is_auth_error (e : event) : bool :=
  match e with
  | EvLog [Lit s] _ => String.eqb s "Authentication failed. Check your OAuth token."
  | _ => false
  end.

Fixpoint count_if (p : event -> bool) (evs : list event) : nat :=
  match evs with
  | [] => 0
  | e :: rest => (if p e then 1 else 0) + count_if p rest
  end.

(** The requests of a trace, in order: URL and [Authorization] header. *)
Fixpoint requests (evs : list event) : list (string * string) :=
  match evs with
  | [] => []
  | EvRequest url authorization :: rest => (url, authorization) :: requests rest
  | _ :: rest => requests rest
  end.

(** What follows the [n]-th request of a trace, [n] counted from 1. *)
Fixpoint since_request (n : nat) (evs : list event) : list event :=
  match evs with
  | [] => []
  | e :: rest =>
      if is_request e then
        match n with
        | 0 => []
        | 1 => rest
        | S n' => since_request n' rest
        end
      else since_request n rest
  end.

Fixpoint until_request (evs : list event) : list event :=
  match evs with
  | [] => []
  | e :: rest => if is_request e then [] else e :: until_request rest
  end.

(** What the [n]-th attempt of a trace did after sending its request: the
    events up to the next request, or to the end of the trace. *)
Definition after_attempt (n : nat) (evs : list event) : list event :=
  until_request (since_request n evs).

(** The reply lets [get] go on to the next attempt: it is neither a decoded
    body nor a 401. *)
Definition retryable (r : reply) : bool :=
  match r with
  | Body _ => false
  | HTTPError code _ => negb (code =? 401)
  | _ => true
  end.

Definition new_events (w w' : world) : list event := drop (length (trace w)) (trace w').




(** The seconds slept in a stretch of a trace. *)
Fixpoint sleeps (evs : list event) : list nat :=
  match evs with
  | [] => []
  | EvSleep secs :: rest => secs :: sleeps rest
  | _ :: rest => sleeps rest
  end.

(** The status line a client reads first on a connection. *)
Fixpoint first_status (evs : list event) : option nat :=
  match evs with
  | [] => None
  | EvSendResponse code :: _ => Some code
  | EvSendError code :: _ => Some code
  | _ :: rest => first_status rest
  end.

Definition substring (needle hay : string) : Prop :=
  exists before after, hay = before +:+ needle +:+ after.

(** The request makes [do_GET] raise [_Authorization]. *)
Definition captures (path : string) : bool :=
  negb (String.prefix "/redirect" path) && String.prefix "/token?" path &&
  match SpotifyAPI.search_access_token path with Some _ => true | None => false end.

(** ** Paged resources *)

Record page := Page { page_url : string; page_items : list json }.

Section Paged.
Context {net : Network}.

(** The remote side serves the pages of [chain]: a request for the URL of a
    page is always answered with a body that holds the items of that page, a
    [total], and as [next] the URL of the page after it, or [null] on the
    last page. *)
Fixpoint serves (authorization : string) (chain : list page) : Prop :=
  match chain with
  | [] => False
  | p :: rest =>
      exists body total,
        (forall n, respond n (page_url p) authorization = Body body) /\
        getitem body "items" = Ret (JArr (page_items p)) /\
        getitem body "total" = Ret total /\
        match rest with
        | [] => getitem body "next" = Ret JNull
        | q :: _ =>
            getitem body "next" = Ret (JStr (page_url q)) /\
            page_url q <> "" /\
            String.prefix SpotifyAPI.API (page_url q) = true /\
            serves authorization rest
        end
  end.
End Paged.

(** ** Batches of playlists *)



Section Batch.
Context {net : Network} {con : Console}.
Variables (fuel : nat) (spotify : SpotifyAPI.t).



End Batch.

(** ** Sample runs *)

Definition api : SpotifyAPI.t := {| SpotifyAPI._auth := "BQDexample" |}.

Definition idle : world := World 0 0 [] [].

(** A remote side that answers the [n]-th request with the [n]-th reply of a
    script, whatever is asked. *)
Definition scripted (replies : list reply) (otherwise : reply) : Network :=
  {| respond := fun n _ _ => nth n replies otherwise; latency := fun _ => 1 |}.

Definition me_body : json := JObj [("id", JStr "alice"); ("display_name", JStr "Alice")].

Definition busy_then_fine : Network :=
  scripted [HTTPError 429 "Too Many Requests"] (Body me_body).


Definition unreachable_second : Network :=
  scripted [HTTPError 500 "Internal Server Error"; URLError "timed out"] (Body me_body).

Definition always_500 : Network := scripted [] (HTTPError 500 "Internal Server Error").

Definition always_unreachable : Network := scripted [] (URLError "timed out").

Definition always_garbled : Network := scripted [] (JSONDecodeError "Expecting value").

Definition sample_track (name : string) : json :=
  JObj [("track", JObj [("name", JStr name)])].

Definition tracks_url (playlist_id : string) : string :=
  "https://api.spotify.com/v1/playlists/" +:+ playlist_id +:+ "/tracks".

Definition sample_playlist (name playlist_id : string) (total : Z) : json :=
  JObj [("name", JStr name);
        ("tracks", JObj [("href", JStr (tracks_url playlist_id)); ("total", JNum total)])].

Definition first_page : string := "https://api.spotify.com/v1/me/tracks?limit=2".
Definition second_page : string := "https://api.spotify.com/v1/me/tracks?offset=2&limit=2".
Definition third_page : string := "https://api.spotify.com/v1/me/tracks?offset=4&limit=2".

Definition page_body (items : list json) (next total : json) : json :=
  JObj [("items", JArr items); ("next", next); ("total", total)].

(** Five liked tracks on three pages; every request takes twenty seconds. *)
Definition liked_tracks : Network :=
  {| respond := fun _ url _ =>
       if String.eqb url first_page then
         Body (page_body [sample_track "a"; sample_track "b"] (JStr second_page) (JNum 5))
       else if String.eqb url second_page then
         Body (page_body [sample_track "c"; sample_track "d"] (JStr third_page) (JNum 5))
       else if String.eqb url third_page then
         Body (page_body [sample_track "e"] JNull (JNum 5))
       else HTTPError 404 "Not Found";
     latency := fun _ => 20 |}.

Definition three_playlists : list json :=
  [sample_playlist "Morning" "p1" 2; sample_playlist "Broken" "p2" 7;
   sample_playlist "Evening" "p3" 1].

(** The track list of the second playlist comes back as an object without
    [items]. *)
Definition one_malformed : Network :=
  {| respond := fun _ url _ =>
       if String.eqb url (tracks_url "p1" +:+ "?limit=100") then
         Body (page_body [sample_track "a"; sample_track "b"] JNull (JNum 2))
       else if String.eqb url (tracks_url "p2" +:+ "?limit=100") then
         Body (JObj [("error", JStr "unavailable")])
       else if String.eqb url (tracks_url "p3" +:+ "?limit=100") then
         Body (page_body [sample_track "z"] JNull (JNum 1))
       else HTTPError 404 "Not Found";
     latency := fun _ => 1 |}.



Definition top_artist (name : string) : json :=
  JObj [("name", JStr name); ("genres", JArr [JStr "jazz"]);
        ("followers", JObj [("total", JNum 10)]); ("uri", JStr "spotify:artist:1")].

Definition liked_songs : json := JObj [("name", JStr "Liked Songs"); ("tracks", JArr [])].

(** A console that prints every message. *)
Definition prints_all : Console := {| refuses := fun _ => None |}.

Fixpoint is_ascii (s : string) : bool :=
  match s with
  | EmptyString => true
  | String c s' => (nat_of_ascii c <? 128) && is_ascii s'
  end.

(** The text of a decoded value holds ASCII characters only. *)
Fixpoint json_is_ascii (v : json) : bool :=
  match v with
  | JStr s => is_ascii s
  | JArr l => forallb json_is_ascii l
  | JObj kv => forallb (fun p => is_ascii (fst p) && json_is_ascii (snd p)) kv
  | _ => true
  end.

Definition frag_is_ascii (f : frag) : bool :=
  match f with
  | Lit s | FStr s => is_ascii s
  | FVal v => json_is_ascii v
  | FExn (KeyError key) => is_ascii key
  | FExn (Authorization access_token) => is_ascii access_token
  | FExn _ | FNat _ => true
  end.

(** The console of a run without rich whose output stream encodes ASCII
    only: [print] raises [UnicodeEncodeError] on every other character. *)
Definition ascii_only : Console :=
  {| refuses := fun message =>
       if forallb frag_is_ascii message then None else Some UnicodeEncodeError |}.





(** ** Top items and the first part of [main] *)

(** [str(n)] for an [int] *)
Definition str_of_Z (z : Z) : string := NilZero.string_of_int (Z.to_int z).

Section TopItems.
Context {net : Network}.

(** [get_top_items] (lines 199-208) *)
Definition get_top_items (fuel : nat) (spotify : SpotifyAPI.t) (item_type time_range : string)
           (limit : Z) : M json :=
  try_except
    (log_message [Lit "Loading top "; FStr item_type; Lit " ("; FStr time_range;
                  Lit ", limit="; FVal (JNum limit); Lit ")..."] (Some "cyan");;
     items ← SpotifyAPI.list fuel spotify (JStr ("me/top/" +:+ item_type))
                             [("time_range", time_range); ("limit", str_of_Z limit)];
     n ← lift (py_len items);
     log_message [Lit "Loaded [bold]"; FNat n; Lit "[/bold] top "; FStr item_type]
                 (Some "green");;
     mret items)
    is_Exception
    (fun e =>
       log_message [Lit "Error loading top "; FStr item_type; Lit ": "; FExn e] (Some "red");;
       mret (JArr [])).
End TopItems.

(** [needle in hay] for two strings *)
Fixpoint str_in (needle hay : string) : bool :=
  String.prefix needle hay ||
  match hay with
  | EmptyString => false
  | String _ hay' => str_in needle hay'
  end.

(** [s.split('.')[-1]]: what follows the last dot, or all of [s] when it has
    no dot. *)
Fixpoint after_last_dot (s : string) : string :=
  match s with
  | EmptyString => EmptyString
  | String c s' =>
      if has_char "." s' then after_last_dot s'
      else if Ascii.eqb c "." then s' else String c s'
  end.

(** [s.lower()] on ASCII text *)
Fixpoint lower (s : string) : string :=
  match s with
  | EmptyString => EmptyString
  | String c s' => String (to_lower c) (lower s')
  end.

(** The ASCII characters that [str.strip()] removes. *)
Definition is_space (c : ascii) : bool :=
  let n := nat_of_ascii c in
  ((9 <=? n) && (n <=? 13)) || ((28 <=? n) && (n <=? 32)).

(** [not s.strip()] *)
Fixpoint blank (s : string) : bool :=
  match s with
  | EmptyString => true
  | String c s' => is_space c && blank s'
  end.

Module Main.

(** What [parser.parse_args()] returns.  [token] and [file] are [None] when
    they are not given. *)
Record args := Args {
  token : option string;
  dump : string;
  top_type : string;
  time_range : string;
  top_limit : Z;
  format : string;
  file : option string
}.

(** What the first part of [main] hands to the part that writes the file. *)
Record backup := Backup {
  out_file : string;
  out_format : string;
  playlists : list json;
  liked_albums : json;
  top_artists : json;
  top_tracks : json
}.

Definition CLIENT_ID : string := "5c098bcc800e45d49e476265bc9b6934".

(** Lines 243-256: the name of the file and the format.  [timestamp] is what
    [datetime.datetime.now().strftime('%Y%m%d-%H%M%S')] returns.  The value is
    the file name and the format as [args] holds them afterwards. *)
Definition resolve_output {con : Console} (timestamp : string) (a : args)
  : M (string * string) :=
  match file a with
  | None | Some EmptyString =>
      let extension := if String.eqb (format a) "json" then "json" else "txt" in
      let name := "playlists-" +:+ timestamp +:+ "." +:+ extension in
      log_message [Lit "No filename provided, using: [bold]"; FStr name; Lit "[/bold]"]
                  (Some "cyan");;
      mret (name, format a)
  | Some name =>
      let file_ext := lower (after_last_dot name) in
      if String.eqb file_ext "json" || String.eqb file_ext "txt" then mret (name, file_ext)
      else
        log_text [Lit "Unknown file extension "; Lit DQUOTE; FStr file_ext; Lit DQUOTE;
                  Lit ", defaulting to txt format"] (Some "yellow");;
        mret (name, "txt")
  end.

(** Lines 258-266: the two checks on the arguments. *)
Definition validate (a : args) : M unit :=
  (if (top_limit a <? 1)%Z || (50 <? top_limit a)%Z then
     log_message [Lit "Top limit must be between 1 and 50"] (Some "red bold");;
     sys_exit 1
   else mret tt);;
  match token a with
  | Some (String c t) =>
      if blank (String c t) || (String.length (String c t) <? 50) then
        log_message [Lit "Invalid OAuth token format. Token should be a long alphanumeric string."]
                    (Some "red bold");;
        sys_exit 1
      else mret tt
  | _ => mret tt
  end.

(** Lines 268-273: the scopes to ask for. *)
Definition scopes (a : args) : list string :=
  (if str_in "playlists" (dump a) || str_in "liked" (dump a) then
     ["playlist-read-private"; "playlist-read-collaborative"; "user-library-read"]
   else []) ++
  (if str_in "top" (dump a) then ["user-top-read"] else []).

(** Lines 275-280 *)
Definition login (a : args) : M SpotifyAPI.t :=
  match token a with
  | Some (String c t) => mret {| SpotifyAPI._auth := String c t |}
  | _ => SpotifyAPI.authorize CLIENT_ID (join_strs " " (scopes a))
  end.

Section Gather.
Context {net : Network} {con : Console}.

(** [str(v)], as [str.format] applies it to a decoded value. *)
Variable py_str : json -> string.

(** Lines 292-297 *)
Definition load_liked (fuel : nat) (spotify : SpotifyAPI.t) (a : args)
  : M (list json * json) :=
  if str_in "liked" (dump a) then
    log_message [Lit "Loading liked albums and songs..."] (Some "cyan");;
    liked_tracks ← SpotifyAPI.list fuel spotify (JStr "me/tracks") [("limit", "50")];
    liked_albums ← SpotifyAPI.list fuel spotify (JStr "me/albums") [("limit", "50")];
    mret ([JObj [("name", JStr "Liked Songs"); ("tracks", liked_tracks)]], liked_albums)
  else mret ([], JArr []).

(** Lines 299-330.  With [rich] the tracks are loaded by the pool, whose
    tasks complete in the order [completion]; without it, one playlist after
    the other.  [playlists += playlist_data] then iterates over the list
    object that holds the playlists as the tasks left them. *)
Definition load_playlists (rich : bool) (completion : list nat) (fuel : nat)
           (spotify : SpotifyAPI.t) (a : args) (me : json) (playlists : list json)
  : M (list json) :=
  if str_in "playlists" (dump a) then
    log_message [Lit "Loading playlists..."] (Some "cyan");;
    user_id ← lift (getitem me "id");
    playlist_data ← SpotifyAPI.list fuel spotify
                      (JStr ("users/" +:+ py_str user_id +:+ "/playlists")) [("limit", "100")];
    n ← lift (py_len playlist_data);
    log_message [Lit "Found [bold]"; FNat n; Lit "[/bold] playlists"] (Some "green");;
    n ← lift (py_len playlist_data);
    when (n =? 0) (log_message [Lit "No playlists found for user"] (Some "yellow"));;
    submitted ← lift (py_iter playlist_data);
    loaded ← (if rich then load_in_pool fuel spotify completion submitted
              else load_sequentially fuel spotify submitted);
    more ← lift (py_iter (match playlist_data with
                          | JArr _ => JArr loaded
                          | _ => playlist_data
                          end));
    mret (playlists ++ more)
  else mret playlists.

(** Lines 332-337 *)
Definition load_top (fuel : nat) (spotify : SpotifyAPI.t) (a : args) : M (json * json) :=
  if str_in "top" (dump a) then
    top_artists ←
      (if String.eqb (top_type a) "artists" || String.eqb (top_type a) "both" then
         get_top_items fuel spotify "artists" (time_range a) (top_limit a)
       else mret (JArr []));
    top_tracks ←
      (if String.eqb (top_type a) "tracks" || String.eqb (top_type a) "both" then
         get_top_items fuel spotify "tracks" (time_range a) (top_limit a)
       else mret (JArr []));
    mret (top_artists, top_tracks)
  else mret (JArr [], JArr []).

(** [main] from line 242 to line 344: everything between the parsing of the
    arguments and the opening of the file. *)
Definition gather (rich : bool) (timestamp : string) (completion : list nat) (fuel : nat)
           (a : args) : M backup :=
  output ← resolve_output timestamp a;
  validate a;;
  spotify ← login a;
  log_message [Lit "Loading user info..."] (Some "cyan");;
  me ← SpotifyAPI.get spotify (JStr "me") [] 3;
  display_name ← lift (getitem me "display_name");
  user_id ← lift (getitem me "id");
  log_text [Lit "Logged in as [bold green]"; FVal display_name;
            Lit "[/bold green] ([cyan]"; FVal user_id; Lit "[/cyan])"] None;;
  liked ← load_liked fuel spotify a;
  playlists ← load_playlists rich completion fuel spotify a me (fst liked);
  top ← load_top fuel spotify a;
  log_message [Lit "Writing files..."] (Some "cyan");;
  log_message [Lit "Playlists to write: "; FNat (length playlists)] (Some "yellow");;
  n ← lift (py_len (snd liked));
  log_message [Lit "Liked albums to write: "; FNat n] (Some "yellow");;
  n ← lift (py_len (fst top));
  log_message [Lit "Top artists to write: "; FNat n] (Some "yellow");;
  n ← lift (py_len (snd top));
  log_message [Lit "Top tracks to write: "; FNat n] (Some "yellow");;
  mret (Backup (fst output) (snd output) playlists (snd liked) (fst top) (snd top)).

End Gather.
End Main.

(** ** What a computation does to the trace *)





(** Whatever the world, the computation only adds events, and every event
    it adds satisfies [P]. *)
Definition only {A} (P : event -> Prop) (m : M A) : Prop :=
  forall w, exists evs, trace (snd (m w)) = trace w ++ evs /\ Forall P evs.





Definition total (l : list nat) : nat := fold_right Nat.add 0 l.

(** The [tracks] of the playlist are still an object, as in the playlist
    listing: a reference with [href] and [total], not a list of tracks. *)
Definition unresolved (playlist : json) : Prop :=
  exists key value rest, getitem playlist "tracks" = Ret (JObj ((key, value) :: rest)).

(** The two values agree on every key other than [tracks]. *)
Definition same_but_tracks (playlist loaded : json) : Prop :=
  forall key, key <> "tracks" -> getitem loaded key = getitem playlist key.

(** Every chunk that is written ends its line with CR LF. *)
Definition ends_line (e : event) : Prop :=
  match e with
  | EvWrite chunk => last chunk = Some (Lit CRLF)
  | _ => True
  end.

(** ** More sample runs *)

(** Every page names a next page. *)
Definition endless_page : json := page_body [sample_track "a"] (JStr second_page) (JNum 1000).

Definition endless : Network := scripted [] (Body endless_page).

Definition error_body : json := JObj [("error", JStr "unavailable")].

Definition no_items : Network := scripted [] (Body error_body).

Definition items_only : json := JObj [("items", JArr [sample_track "a"])].

Definition no_next : Network := scripted [] (Body items_only).

(** Three liked tracks on two pages, the first of which has no [total];
    every request takes [seconds] seconds. *)
Definition first_without_total : json :=
  JObj [("items", JArr [sample_track "a"; sample_track "b"]); ("next", JStr second_page)].

Definition last_without_total : json :=
  JObj [("items", JArr [sample_track "c"]); ("next", JNull)].

Definition without_total (seconds : nat) : Network :=
  {| respond := fun _ url _ =>
       if String.eqb url first_page then Body first_without_total
       else if String.eqb url second_page then Body last_without_total
       else HTTPError 404 "Not Found";
     latency := fun _ => seconds |}.


Definition removed_track : json := JObj [("added_at", JStr "2020-01-01"); ("track", JNull)].

Definition with_removed_track : json :=
  JObj [("name", JStr "Morning");
        ("tracks", JArr [sample_track "a"; removed_track; sample_track "b"])].

Definition without_removed_track : json :=
  JObj [("name", JStr "Morning"); ("tracks", JArr [sample_track "a"; sample_track "b"])].

Definition sample_token : string :=
  "BQDexample0123456789abcdefghijklmnopqrstuvwxyzABCDEFGHIJ".

Definition sample_args (token : option string) (dump : string) (top_limit : Z)
           (file : option string) : Main.args :=
  {| Main.token := token; Main.dump := dump; Main.top_type := "both";
     Main.time_range := "medium_term"; Main.top_limit := top_limit; Main.format := "txt";
     Main.file := file |}.

(** [str] on the values that the sample runs format: text stands for itself
    and an integer is written in decimal. *)
Definition sample_str (v : json) : string :=
  match v with
  | JStr s => s
  | JNum z => str_of_Z z
  | _ => ""
  end.

(** An account with one liked track, no liked album and one playlist of two
    tracks. *)
Definition account : Network :=
  {| respond := fun _ url _ =>
       if String.eqb url "https://api.spotify.com/v1/me" then Body me_body
       else if String.eqb url "https://api.spotify.com/v1/me/tracks?limit=50" then
         Body (page_body [sample_track "liked"] JNull (JNum 1))
       else if String.eqb url "https://api.spotify.com/v1/me/albums?limit=50" then
         Body (page_body [] JNull (JNum 0))
       else if String.eqb url "https://api.spotify.com/v1/users/alice/playlists?limit=100" then
         Body (page_body [sample_playlist "Morning" "p1" 2] JNull (JNum 1))
       else if String.eqb url (tracks_url "p1" +:+ "?limit=100") then
         Body (page_body [sample_track "a"; sample_track "b"] JNull (JNum 2))
       else HTTPError 404 "Not Found";
     latency := fun _ => 1 |}.


(** * Proofs *)

Ltac run :=
  cbv [mbind M_bind bind mret M_ret ret emit log_message lift raise sys_exit diverge when
       time_sleep time_time urlopen_json f_write];
  cbn [fst snd sent now inbound trace];
  repeat rewrite <- app_assoc; cbn [app].

Lemma count_if_app p (l1 l2 : list event) : count_if p (l1 ++ l2) = count_if p l1 + count_if p l2.
Proof. induction l1 as [|e l1 IH]; cbn; [reflexivity | rewrite IH; lia]. Qed.

Section GetFacts.
Context {net : Network}.
Variables (self : SpotifyAPI.t) (u : string) (tries : nat).
Abbreviation hdr := ("Bearer " +:+ SpotifyAPI._auth self).
Abbreviation retry_notice a :=
  (when (a <? tries - 1)
     (log_message [Lit "Retrying... (attempt "; FNat (a + 2); Lit "/"; FNat tries; Lit ")"]
                  (Some "yellow"))).

Lemma attempts_S a rem w :
  SpotifyAPI.attempts self u tries a (S rem) w =
  let r := respond (sent w) u hdr in
  let w1 := World (S (sent w)) (now w + latency (sent w)) (inbound w)
                  (trace w ++ [EvRequest u hdr]) in
  match r with
  | Body j => (Ret j, w1)
  | _ => ((SpotifyAPI.on_error u tries a r;; retry_notice a;;
           SpotifyAPI.attempts self u tries (S a) rem) w1)
  end.
Proof.
  cbn [SpotifyAPI.attempts]. unfold mbind, M_bind, bind, urlopen_json. cbn [fst snd].
  destruct (respond _ _ _); reflexivity.
Qed.

(** A reply that is not final costs log lines and sleeps, nothing else. *)
Lemma failed_attempt_runs a r :
  retryable r = true ->
  exists evs,
    count_if is_request evs = 0 /\ count_if is_auth_error evs = 0 /\
    forall (k : M json) w, exists t,
      (SpotifyAPI.on_error u tries a r;; retry_notice a;; k) w =
      k (World (sent w) t (inbound w) (trace w ++ evs)).
Proof.
  intros Hr.
  destruct r as [j|code reason|reason|msg|msg]; cbn in Hr; try discriminate;
    cbn [SpotifyAPI.on_error];
    try (destruct (code =? 401); [discriminate|]; destruct (code =? 429));
    destruct (a <? tries - 1);
    eexists; (split; [|split; [|intros k w; eexists; run; reflexivity]]); reflexivity.
Qed.

Lemma attempts_skip k : forall a rem w,
  (forall i, i < k -> retryable (respond (sent w + i) u hdr) = true) ->
  exists evs t,
    count_if is_request evs = k /\ count_if is_auth_error evs = 0 /\
    SpotifyAPI.attempts self u tries a (k + rem) w =
    SpotifyAPI.attempts self u tries (a + k) rem
      (World (sent w + k) t (inbound w) (trace w ++ evs)).
Proof.
  induction k as [|k IH]; intros a rem w Hk.
  - exists [], (now w). rewrite app_nil_r, !Nat.add_0_r. destruct w; auto.
  - cbn [Nat.add]. rewrite attempts_S. cbv zeta.
    pose proof (Hk 0 ltac:(lia)) as H0. rewrite Nat.add_0_r in H0.
    destruct (failed_attempt_runs a _ H0) as (evs & Hreq & Hauth & Hrun).
    set (w1 := World (S (sent w)) _ _ _).
    destruct (Hrun (SpotifyAPI.attempts self u tries (S a) (k + rem)) w1) as [t Ht].
    assert (Hstep : SpotifyAPI.attempts self u tries a (S (k + rem)) w =
                    SpotifyAPI.attempts self u tries (S a) (k + rem)
                      (World (S (sent w)) t (inbound w) (trace w ++ EvRequest u hdr :: evs))).
    { rewrite attempts_S. cbv zeta. fold w1.
      destruct (respond (sent w) u hdr); try discriminate; rewrite Ht; subst w1; run; reflexivity. }
    rewrite <- attempts_S, Hstep.
    edestruct (IH (S a) rem) as (evs' & t' & Hreq' & Hauth' & Heq).
    2: { exists (EvRequest u hdr :: evs ++ evs'), t'.
         cbn [count_if is_request is_auth_error]. rewrite !count_if_app.
         split; [lia|]. split; [lia|].
         rewrite Heq. cbn [sent inbound trace].
         replace (S a + k) with (a + S k) by lia.
         replace (S (sent w) + k) with (sent w + S k) by lia.
         rewrite <- app_assoc. reflexivity. }
    cbn [sent]. intros i Hi. replace (S (sent w) + i) with (sent w + S i) by lia.
    apply Hk. lia.
Qed.

Lemma attempts_trace rem : forall a w,
  exists evs,
    trace (snd (SpotifyAPI.attempts self u tries a rem w)) = trace w ++ evs /\
    (rem <> 0 -> exists evs', evs = EvRequest u hdr :: evs').
Proof.
  induction rem as [|rem IH]; intros a w.
  - eexists. split; [run; reflexivity | congruence].
  - rewrite attempts_S. cbv zeta.
    set (w1 := World (S (sent w)) _ _ _).
    destruct (retryable (respond (sent w) u hdr)) eqn:Hr.
    + destruct (failed_attempt_runs a _ Hr) as (evs & _ & _ & Hrun).
      destruct (Hrun (SpotifyAPI.attempts self u tries (S a) rem) w1) as [t Ht].
      destruct (IH (S a) (World (sent w1) t (inbound w1) (trace w1 ++ evs)))
        as (evs' & Hevs' & _).
      exists (EvRequest u hdr :: evs ++ evs'). split; [|eauto].
      destruct (respond (sent w) u hdr); try discriminate;
        rewrite Ht, Hevs'; subst w1; run; rewrite <- ?app_assoc; reflexivity.
    + destruct (respond (sent w) u hdr) as [j|code reason| | |]; try discriminate.
      * exists [EvRequest u hdr]. split; [reflexivity | eauto].
      * cbn in Hr. cbn [SpotifyAPI.on_error].
        destruct (code =? 401); [|discriminate].
        eexists. split; [subst w1; run; reflexivity | eauto].
Qed.
End GetFacts.

Lemma since_request_app pre : forall n u h tail,
  count_if is_request pre = n ->
  since_request (S n) (pre ++ EvRequest u h :: tail) = tail.
Proof.
  induction pre as [|e pre IH]; intros n u h tail Hn; cbn in *.
  - subst n. reflexivity.
  - destruct (is_request e); cbn in Hn.
    + destruct n as [|n]; [discriminate|]. apply IH. lia.
    + apply IH. lia.
Qed.

Lemma until_request_app block : forall u h tail,
  count_if is_request block = 0 ->
  until_request (block ++ EvRequest u h :: tail) = block.
Proof.
  induction block as [|e block IH]; intros u h tail H; cbn in *; [reflexivity|].
  destruct (is_request e); [discriminate|]. f_equal. apply IH. lia.
Qed.

Section GetClaims.
Context {net : Network}.
Variables (self : SpotifyAPI.t) (url : string) (params : list (string * string)).
Variable (tries : nat).
Abbreviation u := (SpotifyAPI.full_url url params).
Abbreviation hdr := ("Bearer " +:+ SpotifyAPI._auth self).


Abbreviation rate_limited_line :=
  (EvLog [Lit "Rate limited. Waiting longer before retry..."] (Some "yellow")).
Abbreviation retrying_line n :=
  (EvLog [Lit "Retrying... (attempt "; FNat n; Lit "/"; FNat tries; Lit ")"] (Some "yellow")).
Abbreviation failed_line :=
  (EvLog [Lit "Failed to load URL after "; FNat tries; Lit " attempts: "; FStr u]
         (Some "red bold")).

(** Attempt [S k] is reached and its reply is [r]: the trace of the whole
    call, split around that attempt. *)
Lemma attempt_reached (k : nat) (w : world) :
  k < tries ->
  (forall i, i < k -> retryable (respond (sent w + i) u hdr) = true) ->
  exists pre t,
    count_if is_request pre = k /\ count_if is_auth_error pre = 0 /\
    SpotifyAPI.get self (JStr url) params tries w =
    SpotifyAPI.attempts self u tries k (S (tries - S k))
      (World (sent w + k) t (inbound w) (trace w ++ pre)).
Proof.
  intros Hk Hpre. cbn [SpotifyAPI.get].
  destruct (attempts_skip self u tries k 0 (tries - k) w Hpre)
    as (evs & t & Hreq & Hauth & Heq).
  replace (k + (tries - k)) with tries in Heq by lia.
  replace (tries - k) with (S (tries - S k)) in Heq by lia.
  exists evs, t. auto.
Qed.

(** C5.  When attempt [n] (counted from 1) of [get] is answered with a 429,
    the attempt logs the rate limit and sleeps [10 * n] seconds before
    anything else happens; when it is not the last attempt the retry
    follows, and when a later attempt is answered with a body, [get] returns
    that body. *)
Theorem get_429_backoff (n : nat) (w : world) (reason : string) :
  1 <= n <= tries ->
  (forall i, i < n - 1 -> retryable (respond (sent w + i) u hdr) = true) ->
  respond (sent w + (n - 1)) u hdr = HTTPError 429 reason ->
  exists evs,
    trace (snd (SpotifyAPI.get self (JStr url) params tries w)) = trace w ++ evs /\
    after_attempt n evs =
      [rate_limited_line; EvSleep (10 * n);
       if n <? tries then retrying_line (n + 1) else failed_line] /\
    (n < tries -> n < count_if is_request evs) /\
    (forall m j,
        n < m <= tries ->
        (forall i, n <= i < m - 1 -> retryable (respond (sent w + i) u hdr) = true) ->
        respond (sent w + (m - 1)) u hdr = Body j ->
        fst (SpotifyAPI.get self (JStr url) params tries w) = Ret j).
Proof.
  intros Hn Hpre H429.
  destruct n as [|k]; [lia|]. replace (S k - 1) with k in * by lia.
  destruct (attempt_reached k w ltac:(lia) Hpre) as (pre & t & Hreq & _ & Heq).
  assert (exists evs,
    trace (snd (SpotifyAPI.get self (JStr url) params tries w)) = trace w ++ evs /\
    after_attempt (S k) evs =
      [rate_limited_line; EvSleep (10 * S k);
       if S k <? tries then retrying_line (S k + 1) else failed_line] /\
    (S k < tries -> S k < count_if is_request evs)) as (evs & H1 & H2 & H3).
  { rewrite Heq, attempts_S. cbv zeta. cbn [sent]. rewrite H429.
    cbn [SpotifyAPI.on_error Nat.eqb]. replace (k + 1) with (S k) by lia.
    destruct (tries - S k) as [|rem] eqn:Hrem.
    - replace (k <? tries - 1) with false by (symmetry; apply Nat.ltb_ge; lia).
      replace (S k <? tries) with false by (symmetry; apply Nat.ltb_ge; lia).
      cbn [SpotifyAPI.attempts]. run.
      eexists (pre ++ EvRequest u hdr :: _). split; [reflexivity|].
      unfold after_attempt. rewrite (since_request_app pre k) by assumption.
      split; [reflexivity | lia].
    - replace (k <? tries - 1) with true by (symmetry; apply Nat.ltb_lt; lia).
      replace (S k <? tries) with true by (symmetry; apply Nat.ltb_lt; lia).
      run.
      match goal with |- context [SpotifyAPI.attempts _ _ _ _ _ ?w2] =>
        destruct (attempts_trace self u tries (S rem) (S k) w2) as (tl & Htl & Hhd)
      end.
      destruct (Hhd ltac:(congruence)) as [tl' ->].
      rewrite Htl. cbn [trace]. rewrite <- ?app_assoc. cbn [app].
      eexists (pre ++ EvRequest u hdr :: _). split; [reflexivity|].
      unfold after_attempt. rewrite (since_request_app pre k) by assumption.
      replace (k + 2) with (S k + 1) by lia.
      split; [reflexivity|]. intros _.
      rewrite count_if_app. cbn. lia. }
  exists evs. repeat split; try assumption.
  intros m j Hm Hmid Hbody.
  destruct m as [|m]; [lia|]. replace (S m - 1) with m in * by lia.
  assert (Hall : forall i, i < m -> retryable (respond (sent w + i) u hdr) = true).
  { intros i Hi. destruct (Nat.lt_ge_cases i k); [auto|].
    destruct (Nat.eq_dec i k) as [->|]; [rewrite H429; reflexivity|].
    apply Hmid. lia. }
  destruct (attempt_reached m w ltac:(lia) Hall) as (pre' & t' & _ & _ & Heq').
  rewrite Heq', attempts_S. cbv zeta. cbn [sent]. rewrite Hbody. reflexivity.
Qed.

(** An attempt that is not the last and whose reply lets [get] go on: what
    it does between its request and the next one. *)
Lemma nonfinal_attempt (k : nat) (w : world) (block : list event) :
  S k < tries ->
  (forall i, i < k -> retryable (respond (sent w + i) u hdr) = true) ->
  retryable (respond (sent w + k) u hdr) = true ->
  count_if is_request block = 0 ->
  (forall (K : M json) w1, exists t,
      (SpotifyAPI.on_error u tries k (respond (sent w + k) u hdr);;
       when (k <? tries - 1) (emit (retrying_line (k + 2)));; K) w1
      = K (World (sent w1) t (inbound w1) (trace w1 ++ block))) ->
  exists evs,
    trace (snd (SpotifyAPI.get self (JStr url) params tries w)) = trace w ++ evs /\
    after_attempt (S k) evs = block /\
    S k < count_if is_request evs.
Proof.
  intros Hk Hpre Hr Hblock Hrun.
  destruct (attempt_reached k w ltac:(lia) Hpre) as (pre & t & Hreq & _ & Heq).
  rewrite Heq, attempts_S. cbv zeta. cbn [sent].
  set (w1 := World (S (sent w + k)) _ _ _).
  destruct (tries - S k) as [|rem] eqn:Hrem; [lia|].
  destruct (Hrun (SpotifyAPI.attempts self u tries (S k) (S rem)) w1) as [t1 Ht1].
  unfold log_message.
  destruct (attempts_trace self u tries (S rem) (S k)
              (World (sent w1) t1 (inbound w1) (trace w1 ++ block)))
    as (tl & Htl & Hhd).
  destruct (Hhd ltac:(congruence)) as [tl' ->].
  exists (pre ++ EvRequest u hdr :: block ++ EvRequest u hdr :: tl').
  split.
  - destruct (respond (sent w + k) u hdr); try discriminate;
      rewrite Ht1, Htl; subst w1; cbn [trace]; rewrite <- ?app_assoc; reflexivity.
  - unfold after_attempt. rewrite (since_request_app pre k) by assumption.
    rewrite until_request_app by assumption. split; [reflexivity|].
    rewrite !count_if_app. cbn. rewrite count_if_app. cbn. lia.
Qed.

(** C4, amended.  On an attempt [n] (counted from 1) that is not the last,
    an HTTP error other than 401 and 429 and a network error make [get]
    sleep [2 * n] seconds and retry; a body that is not JSON makes it sleep
    2 seconds, whatever [n] is, and retry. *)
Theorem get_backoff_after_failure (n : nat) (w : world) :
  1 <= n < tries ->
  (forall i, i < n - 1 -> retryable (respond (sent w + i) u hdr) = true) ->
  (forall code reason,
      respond (sent w + (n - 1)) u hdr = HTTPError code reason ->
      code <> 401 -> code <> 429 ->
      exists evs,
        trace (snd (SpotifyAPI.get self (JStr url) params tries w)) = trace w ++ evs /\
        after_attempt n evs =
          [EvLog [Lit "HTTP error "; FNat code; Lit ": "; FStr reason; Lit " for URL: ";
                  FStr u] (Some "red");
           EvSleep (2 * n); retrying_line (n + 1)] /\
        n < count_if is_request evs) /\
  (forall reason,
      respond (sent w + (n - 1)) u hdr = URLError reason ->
      exists evs,
        trace (snd (SpotifyAPI.get self (JStr url) params tries w)) = trace w ++ evs /\
        after_attempt n evs =
          [EvLog [Lit "Network error: "; FStr reason; Lit " for URL: "; FStr u] (Some "red");
           EvSleep (2 * n); retrying_line (n + 1)] /\
        n < count_if is_request evs) /\
  (forall msg,
      respond (sent w + (n - 1)) u hdr = JSONDecodeError msg ->
      exists evs,
        trace (snd (SpotifyAPI.get self (JStr url) params tries w)) = trace w ++ evs /\
        after_attempt n evs =
          [EvLog [Lit "Invalid JSON response from URL: "; FStr u; Lit " ("; FStr msg;
                  Lit ")"] (Some "red bold");
           EvSleep 2; retrying_line (n + 1)] /\
        n < count_if is_request evs).
Proof.
  intros Hn Hpre.
  destruct n as [|k]; [lia|]. replace (S k - 1) with k in * by lia.
  assert (Hlt : (k <? tries - 1) = true) by (apply Nat.ltb_lt; lia).
  replace (S k + 1) with (k + 2) by lia. replace (2 * S k) with (2 * (k + 1)) by lia.
  split; [|split].
  - intros code reason Hreply H401 H429.
    apply nonfinal_attempt; try tauto; try reflexivity;
      rewrite Hreply; cbn [retryable SpotifyAPI.on_error];
      apply Nat.eqb_neq in H401, H429; rewrite H401; [reflexivity|].
    rewrite H429, Hlt. intros K w1. run. eexists. reflexivity.
  - intros reason Hreply.
    apply nonfinal_attempt; try tauto; try reflexivity;
      rewrite Hreply; cbn [retryable SpotifyAPI.on_error]; [reflexivity|].
    rewrite Hlt. intros K w1. run. eexists. reflexivity.
  - intros msg Hreply.
    apply nonfinal_attempt; try tauto; try reflexivity;
      rewrite Hreply; cbn [retryable SpotifyAPI.on_error]; [reflexivity|].
    rewrite Hlt. intros K w1. run. eexists. reflexivity.
Qed.

(** C8, amended.  When none of the [tries] attempts succeeds, [get] raises
    [SystemExit(1)] after exactly [tries] requests.  The line it logs last
    names the number of attempts and the URL, nothing else; the last error
    is in the line that the last attempt logged just before it. *)
Theorem get_exhausted (w : world) :
  0 < tries ->
  (forall i, i < tries -> retryable (respond (sent w + i) u hdr) = true) ->
  exists w' evs,
    SpotifyAPI.get self (JStr url) params tries w = (Raise (SystemExit 1), w') /\
    trace w' = trace w ++ evs /\
    count_if is_request evs = tries /\
    last evs = Some failed_line /\
    after_attempt tries evs =
      match respond (sent w + (tries - 1)) u hdr with
      | Body _ => []
      | HTTPError code reason =>
          if code =? 429 then [rate_limited_line; EvSleep (10 * tries)]
          else [EvLog [Lit "HTTP error "; FNat code; Lit ": "; FStr reason; Lit " for URL: ";
                       FStr u] (Some "red")]
      | URLError reason =>
          [EvLog [Lit "Network error: "; FStr reason; Lit " for URL: "; FStr u] (Some "red")]
      | JSONDecodeError msg =>
          [EvLog [Lit "Invalid JSON response from URL: "; FStr u; Lit " ("; FStr msg;
                  Lit ")"] (Some "red bold")]
      | OtherError msg =>
          [EvLog [Lit "Unexpected error: "; FStr msg; Lit " for URL: "; FStr u] (Some "red")]
      end ++ [failed_line].
Proof.
  intros Htries Hall.
  remember (tries - 1) as k eqn:Ek.
  assert (Etries : tries = S k) by lia.
  destruct (attempt_reached k w ltac:(lia) ltac:(intros; apply Hall; lia))
    as (pre & t & Hreq & _ & Heq).
  rewrite Heq, attempts_S. cbv zeta. cbn [sent].
  replace (tries - S k) with 0 by lia.
  assert (Hlt : (k <? tries - 1) = false) by (apply Nat.ltb_ge; lia).
  pose proof (Hall k ltac:(lia)) as Hr.
  replace (10 * tries) with (10 * (k + 1)) by lia.
  destruct (respond (sent w + k) u hdr) as [j|code reason|reason|msg|msg];
    cbn in Hr; try discriminate; cbn [SpotifyAPI.on_error SpotifyAPI.attempts];
    try (destruct (code =? 401); [discriminate|]; destruct (code =? 429));
    rewrite ?Hlt; run;
    (eexists _, (pre ++ EvRequest u hdr :: _); split; [reflexivity|];
     split; [reflexivity|];
     split; [rewrite count_if_app; cbn; lia|];
     split; [rewrite last_app; reflexivity|];
     unfold after_attempt;
     replace (since_request tries) with (since_request (S k)) by (now rewrite Etries);
     rewrite (since_request_app pre k) by assumption;
     reflexivity).
Qed.
End GetClaims.

Section ListFacts.
Context {net : Network}.
Variable (self : SpotifyAPI.t).
Abbreviation hdr := ("Bearer " +:+ SpotifyAPI._auth self).

Lemma pages_unfold fuel last response items :
  SpotifyAPI.pages fuel self last response items =
  (next ← lift (getitem response "next");
   if truthy next then
     match fuel with
     | 0 => diverge
     | S fuel' =>
         t0 ← time_time;
         last_log_time ←
           (if last + 15 <? t0 then
              t1 ← time_time;
              n ← lift (py_len items);
              total ← lift (getitem response "total");
              log_message [Lit "Loaded "; FNat n; Lit "/"; FVal total; Lit " items"]
                          (Some "cyan");;
              mret t1
            else mret last);
         next ← lift (getitem response "next");
         response ← SpotifyAPI.get self next [] 3;
         more ← lift (getitem response "items");
         items ← lift (iadd items more);
         SpotifyAPI.pages fuel' self last_log_time response items
     end
   else mret items).
Proof. destruct fuel; reflexivity. Qed.

(** A request that is answered with a body at once. *)
Lemma get_answered url params body w :
  (forall n, respond n (SpotifyAPI.full_url url params) hdr = Body body) ->
  SpotifyAPI.get self (JStr url) params 3 w =
  (Ret body, World (S (sent w)) (now w + latency (sent w)) (inbound w)
                   (trace w ++ [EvRequest (SpotifyAPI.full_url url params) hdr])).
Proof.
  intros H. cbn [SpotifyAPI.get SpotifyAPI.attempts]. run. rewrite H. reflexivity.
Qed.

Lemma full_url_next url :
  String.prefix SpotifyAPI.API url = true -> SpotifyAPI.full_url url [] = url.
Proof. intros H. unfold SpotifyAPI.full_url. rewrite H. reflexivity. Qed.

Lemma pages_walk rest : forall body total acc last fuel w,
  getitem body "total" = Ret total ->
  match rest with
  | [] => getitem body "next" = Ret JNull
  | q :: _ =>
      getitem body "next" = Ret (JStr (page_url q)) /\
      page_url q <> "" /\
      String.prefix SpotifyAPI.API (page_url q) = true /\
      serves hdr rest
  end ->
  length rest <= fuel ->
  exists w' evs,
    SpotifyAPI.pages fuel self last body (JArr acc) w =
      (Ret (JArr (acc ++ concat (map page_items rest))), w') /\
    trace w' = trace w ++ evs /\
    requests evs = map (fun p => (page_url p, hdr)) rest.
Proof.
  induction rest as [|q rest IH]; intros body total acc last fuel w Htotal Hnext Hfuel;
    rewrite pages_unfold.
  - run. rewrite Hnext. cbn [truthy]. exists w. exists (@nil event).
    cbn [map concat]. rewrite !app_nil_r. auto.
  - destruct Hnext as (Hnext & Hne & Hpre & Hq).
    destruct fuel as [|fuel]; [cbn in Hfuel; lia|].
    cbn [serves] in Hq. destruct Hq as (bq & tq & Hresp & Hitems & Htq & Hlinks).
    run. rewrite Hnext. cbn [truthy].
    apply String.eqb_neq in Hne. rewrite Hne. cbn [negb].
    assert (Hget : forall w0, SpotifyAPI.get self (JStr (page_url q)) [] 3 w0 =
              (Ret bq, World (S (sent w0)) (now w0 + latency (sent w0)) (inbound w0)
                             (trace w0 ++ [EvRequest (page_url q) hdr]))).
    { intros w0. rewrite get_answered with (body := bq);
        rewrite full_url_next by assumption; auto. }
    destruct (last + 15 <? now w).
    + cbn [py_len]. rewrite Htotal, Hget, Hitems. cbn [iadd py_iter].
      cbn [fst snd sent now inbound trace].
      edestruct IH with (body := bq) (total := tq) (acc := acc ++ page_items q) (fuel := fuel)
        as (w' & evs & Hrun & Htr & Hreqs);
        [eassumption | eassumption | cbn in Hfuel; lia |].
      rewrite Hrun. eexists w', (_ :: _ :: evs). split.
      * cbn [map concat]. rewrite app_assoc. reflexivity.
      * rewrite Htr. cbn [trace]. rewrite <- !app_assoc. cbn [app].
        split; [reflexivity|]. cbn [requests map]. rewrite Hreqs. reflexivity.
    + rewrite Hget, Hitems. cbn [iadd py_iter].
      cbn [fst snd sent now inbound trace].
      edestruct IH with (body := bq) (total := tq) (acc := acc ++ page_items q) (fuel := fuel)
        as (w' & evs & Hrun & Htr & Hreqs);
        [eassumption | eassumption | cbn in Hfuel; lia |].
      rewrite Hrun. eexists w', (_ :: evs). split.
      * cbn [map concat]. rewrite app_assoc. reflexivity.
      * rewrite Htr. cbn [trace]. rewrite <- !app_assoc. cbn [app].
        split; [reflexivity|]. cbn [requests map]. rewrite Hreqs. reflexivity.
Qed.

(** C1.  When the remote side serves a chain of pages, [list] returns the
    items of all pages, concatenated in page order, however the items are
    spread over the pages.  It sends one request per page: the first for the
    URL built from [url] and [params], each further one for exactly the
    [next] of the page before it; it stops at the page whose [next] is
    [null], so a single page costs a single request. *)
Theorem list_walks_all_pages url params first rest fuel w :
  page_url first = SpotifyAPI.full_url url params ->
  serves hdr (first :: rest) ->
  length rest <= fuel ->
  exists w' evs,
    SpotifyAPI.list fuel self (JStr url) params w =
      (Ret (JArr (concat (map page_items (first :: rest)))), w') /\
    trace w' = trace w ++ evs /\
    requests evs = map (fun p => (page_url p, hdr)) (first :: rest).
Proof.
  intros Hurl Hserves Hfuel.
  cbn [serves] in Hserves. destruct Hserves as (body & total & Hresp & Hitems & Htotal & Hlinks).
  unfold SpotifyAPI.list. run.
  rewrite Hurl in Hresp.
  rewrite (get_answered url params body) by assumption.
  rewrite Hitems.
  edestruct (pages_walk rest body total (page_items first)) as (w' & evs & Hrun & Htr & Hreqs);
    [eassumption | eassumption | eassumption |].
  rewrite Hrun. exists w', (EvRequest (SpotifyAPI.full_url url params) hdr :: evs).
  split; [reflexivity|]. rewrite Htr. cbn [trace]. rewrite <- app_assoc.
  split; [reflexivity|]. cbn [requests map]. rewrite Hreqs, Hurl. reflexivity.
Qed.
End ListFacts.

Lemma last_app_cons {A} (l1 l2 : list A) x : last (l1 ++ x :: l2) = last (x :: l2).
Proof.
  rewrite last_app. destruct (last (x :: l2)) eqn:E; [reflexivity|].
  apply last_None in E. discriminate.
Qed.

Ltac last_event :=
  repeat (rewrite last_app_cons || rewrite last_cons_cons || rewrite app_comm_cons);
  reflexivity.

Lemma new_events_app w w' evs : trace w' = trace w ++ evs -> new_events w w' = evs.
Proof. intros H. unfold new_events. rewrite H. apply drop_app_length. Qed.

Lemma strip_prefix_Some p : forall s rest,
  SpotifyAPI.strip_prefix p s = Some rest <-> s = p +:+ rest.
Proof.
  induction p as [|a p IH]; intros s rest; cbn.
  - split; [intros [= ->] | intros ->]; reflexivity.
  - destruct s as [|b s]; [split; discriminate|].
    destruct (Ascii.eqb a b) eqn:E.
    + apply Ascii.eqb_eq in E. subst b. rewrite IH.
      split; [intros ->; reflexivity | intros [= ->]; reflexivity].
    + apply Ascii.eqb_neq in E. split; [discriminate | intros [= ? ?]; congruence].
Qed.

Lemma search_found s : forall tok,
  SpotifyAPI.search_access_token s = Some tok -> substring "access_token=" s.
Proof.
  induction s as [|c s IH]; intros tok H.
  - cbn in H. discriminate.
  - cbn [SpotifyAPI.search_access_token] in H.
    destruct (SpotifyAPI.strip_prefix "access_token=" (String c s)) as [rest|] eqn:E.
    + apply strip_prefix_Some in E. exists "", rest. exact E.
    + destruct (IH _ H) as (a & b & ->). exists (String c a), b. reflexivity.
Qed.

Lemma search_missing s :
  SpotifyAPI.search_access_token s = None -> ~ substring "access_token=" s.
Proof.
  induction s as [|c s IH]; intros H (a & b & Hab).
  - destruct a; discriminate.
  - cbn [SpotifyAPI.search_access_token] in H.
    destruct (SpotifyAPI.strip_prefix "access_token=" (String c s)) as [rest|] eqn:E;
      [discriminate|].
    destruct a as [|c' a].
    + assert (SpotifyAPI.strip_prefix "access_token=" (String c s) = Some b)
        by (apply strip_prefix_Some; exact Hab).
      congruence.
    + injection Hab as -> ->. apply (IH H). exists a, b. reflexivity.
Qed.

Lemma until_amp_stop tok more :
  has_char "&" tok = false ->
  more = "" \/ (exists rest, more = "&" +:+ rest) ->
  SpotifyAPI.until_amp (tok +:+ more) = tok.
Proof.
  intros Htok Hmore. induction tok as [|c tok IH].
  - destruct Hmore as [->|[rest ->]]; reflexivity.
  - cbn [has_char] in Htok. change (String c tok +:+ more) with (String c (tok +:+ more)).
    cbn [SpotifyAPI.until_amp]. rewrite (Ascii.eqb_sym c "&"%char).
    destruct (Ascii.eqb "&" c); [discriminate|]. rewrite IH; auto.
Qed.

Lemma do_GET_quiet path :
  captures path = false ->
  exists evs, forall w,
    SpotifyAPI.do_GET path w = (Ret tt, World (sent w) (now w) (inbound w) (trace w ++ evs)).
Proof.
  unfold captures, SpotifyAPI.do_GET. intros H.
  destruct (String.prefix "/redirect" path).
  - eexists. intros w. run. reflexivity.
  - destruct (String.prefix "/token?" path).
    + destruct (SpotifyAPI.search_access_token path); [discriminate|].
      eexists. intros w. run. reflexivity.
    + eexists. intros w. run. reflexivity.
Qed.

Lemma serve_quiet quiet : forall n w rest,
  inbound w = map InGET quiet ++ rest ->
  Forall (fun p => captures p = false) quiet ->
  length quiet <= n ->
  exists evs,
    SpotifyAPI.serve n w =
    SpotifyAPI.serve (n - length quiet) (World (sent w) (now w) rest (trace w ++ evs)).
Proof.
  induction quiet as [|p quiet IH]; intros n w rest Hin Hq Hn.
  - exists []. cbn in *. rewrite Nat.sub_0_r, app_nil_r. destruct w; cbn in *; subst; reflexivity.
  - destruct n as [|n]; [cbn in Hn; lia|].
    inversion Hq as [|? ? Hp Hq']; subst.
    destruct (do_GET_quiet p Hp) as [evs Hevs].
    cbn [SpotifyAPI.serve]. unfold mbind, M_bind, bind, SpotifyAPI.handle_request.
    rewrite Hin. cbn [map app]. rewrite Hevs. cbn [sent now inbound trace].
    edestruct (IH n) as [evs' Hevs']; [ | eassumption | cbn in Hn; lia | ].
    2: { rewrite Hevs'. cbn [sent now inbound trace length Nat.sub].
         exists (evs ++ evs'). rewrite app_assoc. reflexivity. }
    reflexivity.
Qed.

Lemma do_GET_token tok more w :
  has_char "&" tok = false ->
  more = "" \/ (exists rest, more = "&" +:+ rest) ->
  SpotifyAPI.do_GET ("/token?access_token=" +:+ tok +:+ more) w =
  (Raise (Authorization tok),
   World (sent w) (now w) (inbound w)
         (trace w ++ [EvSendResponse 200; EvSendHeader "Content-Type" "text/html"; EvEndHeaders;
                      EvWfileWrite SpotifyAPI.thanks_page;
                      EvLog [Lit "Received access token from Spotify"] (Some "green")])).
Proof.
  intros Htok Hmore. unfold SpotifyAPI.do_GET.
  set (rest := tok +:+ more).
  replace (String.prefix "/redirect" ("/token?access_token=" +:+ rest)) with false
    by (cbv [String.append]; reflexivity).
  replace (String.prefix "/token?" ("/token?access_token=" +:+ rest)) with true
    by (cbv [String.append]; reflexivity).
  replace (SpotifyAPI.search_access_token ("/token?access_token=" +:+ rest))
    with (Some (SpotifyAPI.until_amp rest)) by (cbv [String.append]; reflexivity).
  subst rest. rewrite until_amp_stop by assumption.
  run. reflexivity.
Qed.

Lemma serve_raises n w e w' :
  SpotifyAPI.handle_request w = (Raise e, w') -> SpotifyAPI.serve n w = (Raise e, w').
Proof.
  intros H. destruct n; cbn [SpotifyAPI.serve]; [assumption|].
  unfold mbind, M_bind, bind. rewrite H. reflexivity.
Qed.

Lemma authorize_captures client_id scope tok more quiet later w :
  inbound w = map InGET quiet ++ InGET ("/token?access_token=" +:+ tok +:+ more) :: later ->
  Forall (fun p => captures p = false) quiet ->
  has_char "&" tok = false ->
  more = "" \/ (exists rest, more = "&" +:+ rest) ->
  exists w',
    SpotifyAPI.authorize client_id scope w = (Ret {| SpotifyAPI._auth := tok |}, w') /\
    inbound w' = later /\
    last (trace w') = Some EvServerClose.
Proof.
  intros Hin Hq Htok Hmore. unfold SpotifyAPI.authorize. run.
  unfold try_finally, try_except. cbn [inbound].
  match goal with |- context [SpotifyAPI.serve ?n ?w0] =>
    destruct (serve_quiet quiet n w0
                (InGET ("/token?access_token=" +:+ tok +:+ more) :: later))
      as [evs Hevs]
  end; [exact Hin | exact Hq | rewrite Hin, length_app, length_map; lia |].
  rewrite Hevs.
  erewrite serve_raises.
  2: { unfold SpotifyAPI.handle_request. cbn [inbound sent now trace].
       rewrite do_GET_token by assumption. reflexivity. }
  cbn [fst snd sent now inbound trace]. run.
  eexists. split; [reflexivity|]. split; [reflexivity|].
  cbn [trace]. last_event.
Qed.


(** C10.  The path [/token?access_token=] is captured: the pattern matches
    with an empty group, the handler raises [_Authorization] with the empty
    string and [authorize] returns it as the token.  The handler reaches
    [send_error(400)] for exactly the paths under [/token?] in which the
    text [access_token=] does not occur. *)
Theorem empty_access_token_is_captured :
  (forall w,
      SpotifyAPI.do_GET "/token?access_token=" w =
      (Raise (Authorization ""),
       World (sent w) (now w) (inbound w)
             (trace w ++ [EvSendResponse 200; EvSendHeader "Content-Type" "text/html";
                          EvEndHeaders; EvWfileWrite SpotifyAPI.thanks_page;
                          EvLog [Lit "Received access token from Spotify"] (Some "green")]))) /\
  (forall client_id scope later w,
      inbound w = InGET "/token?access_token=" :: later ->
      exists w',
        SpotifyAPI.authorize client_id scope w = (Ret {| SpotifyAPI._auth := "" |}, w') /\
        inbound w' = later) /\
  (forall path w,
      In (EvSendError 400) (new_events w (snd (SpotifyAPI.do_GET path w))) <->
      String.prefix "/redirect" path = false /\
      String.prefix "/token?" path = true /\
      ~ substring "access_token=" path).
Proof.
  split; [|split].
  - intros w. apply (do_GET_token "" "" w); auto.
  - intros client_id scope later w Hin.
    destruct (authorize_captures client_id scope "" "" [] later w Hin) as (w' & H1 & H2 & _);
      [constructor | reflexivity | auto |]. eauto.
  - intros path w. unfold SpotifyAPI.do_GET.
    destruct (String.prefix "/redirect" path).
    { run. erewrite new_events_app by reflexivity. cbn. intuition discriminate. }
    destruct (String.prefix "/token?" path).
    + destruct (SpotifyAPI.search_access_token path) as [tok|] eqn:E.
      * run. erewrite new_events_app by reflexivity. cbn.
        apply search_found in E. intuition discriminate.
      * run. erewrite new_events_app by reflexivity. cbn.
        apply search_missing in E. tauto.
    + run. erewrite new_events_app by reflexivity. cbn. intuition discriminate.
Qed.

(** C6.  What the handler does with [/token?foo=bar]: it has sent the 200
    response and the closing page before it looks for the token, so the 400
    comes second on the same connection and the status a client reads is
    200.  The handler returns, and the server goes on listening. *)
Theorem token_request_without_access_token (w : world) :
  SpotifyAPI.do_GET "/token?foo=bar" w =
  (Ret tt, World (sent w) (now w) (inbound w)
                 (trace w ++ [EvSendResponse 200; EvSendHeader "Content-Type" "text/html";
                              EvEndHeaders; EvWfileWrite SpotifyAPI.thanks_page;
                              EvSendError 400])) /\
  first_status (new_events w (snd (SpotifyAPI.do_GET "/token?foo=bar" w))) = Some 200.
Proof.
  assert (H : SpotifyAPI.do_GET "/token?foo=bar" w =
    (Ret tt, World (sent w) (now w) (inbound w)
                 (trace w ++ [EvSendResponse 200; EvSendHeader "Content-Type" "text/html";
                              EvEndHeaders; EvWfileWrite SpotifyAPI.thanks_page;
                              EvSendError 400]))).
  { unfold SpotifyAPI.do_GET.
    replace (String.prefix "/redirect" "/token?foo=bar") with false by reflexivity.
    replace (String.prefix "/token?" "/token?foo=bar") with true by reflexivity.
    replace (SpotifyAPI.search_access_token "/token?foo=bar") with (@None string)
      by reflexivity.
    run. reflexivity. }
  split; [exact H|]. rewrite H. cbn [snd]. erewrite new_events_app by reflexivity. reflexivity.
Qed.

(** ** What a 401 does to the run *)




Section Silent.
Context {A B : Type}.






End Silent.

















Section StopsAt401.
Context {net : Network}.
Variable (self : SpotifyAPI.t).






Context {con : Console}.


End StopsAt401.



Section Pool401.
Context {net : Network} {con : Console}.
Variables (fuel : nat) (spotify : SpotifyAPI.t).


End Pool401.


Section Main401.
Context {net : Network} {con : Console}.
Variable py_str : json -> string.









End Main401.


Section BatchFacts.
Context {net : Network} {con : Console}.
Variables (fuel : nat) (spotify : SpotifyAPI.t).


(** When the console refuses the line that reports the failure, the
    exception of the console leaves [load_playlist_tracks]. *)
Lemma failure_is_not_reported playlist name e refusal w w' :
  getitem playlist "name" = Ret name ->
  refuses [Lit "Error loading playlist "; FVal name; Lit ": "; FExn e] = Some refusal ->
  fetch_tracks fuel spotify playlist w = (Raise e, w') ->
  is_Exception e = true ->
  load_playlist_tracks fuel spotify playlist w = (Raise refusal, w').
Proof.
  intros Hname Hrefused Hfetch Hexn. unfold load_playlist_tracks, try_except.
  unfold mbind at 1, M_bind at 1, bind at 1. rewrite Hfetch, Hexn.
  unfold log_text. run. rewrite Hname, Hrefused. reflexivity.
Qed.





End BatchFacts.

(** C9.  With no liked albums the text writer stops after the playlists:
    whatever the top artists and the top tracks are, the file holds the
    playlist section and nothing else, because the three other sections sit
    inside the branch for a non-empty list of liked albums. *)
Theorem top_sections_need_liked_albums playlists liked_albums top_artists top_tracks
        time_range w :
  py_len liked_albums = Ret 0 ->
  write_text playlists liked_albums top_artists top_tracks time_range w =
  (f_write [Lit "Playlists: "; Lit CRLF; Lit CRLF];; for_each playlists write_playlist) w.
Proof.
  intros Hlen. unfold write_text.
  unfold mbind, M_bind, bind, lift. rewrite Hlen.
  destruct (f_write _ w) as [[[]|e|] w1]; try reflexivity.
  destruct (for_each playlists write_playlist w1) as [[[]|e|] w2]; reflexivity.
Qed.


(** * The theorems at the sample runs *)

Lemma list_walks_all_pages_witness :
  exists w' evs,
    SpotifyAPI.list (net := liked_tracks) 2 api (JStr "me/tracks") [("limit", "2")] idle =
      (Ret (JArr [sample_track "a"; sample_track "b"; sample_track "c"; sample_track "d";
                  sample_track "e"]), w') /\
    trace w' = trace idle ++ evs /\
    requests evs = [(first_page, "Bearer BQDexample"); (second_page, "Bearer BQDexample");
                    (third_page, "Bearer BQDexample")].
Proof.
  apply (list_walks_all_pages (net := liked_tracks) api "me/tracks" [("limit", "2")]
           (Page first_page [sample_track "a"; sample_track "b"])
           [Page second_page [sample_track "c"; sample_track "d"];
            Page third_page [sample_track "e"]] 2 idle).
  - reflexivity.
  - cbn [serves page_url page_items].
    eexists _, _. split; [intros n; reflexivity|].
    split; [reflexivity|]. split; [reflexivity|]. split; [reflexivity|].
    split; [discriminate|]. split; [reflexivity|].
    eexists _, _. split; [intros n; reflexivity|].
    split; [reflexivity|]. split; [reflexivity|]. split; [reflexivity|].
    split; [discriminate|]. split; [reflexivity|].
    eexists _, _. split; [intros n; reflexivity|].
    split; [reflexivity|]. split; reflexivity.
  - cbn. lia.
Defined.



Lemma get_429_backoff_witness :
  exists evs,
    trace (snd (SpotifyAPI.get (net := busy_then_fine) api (JStr "me") [] 3 idle))
      = trace idle ++ evs /\
    after_attempt 1 evs =
      [EvLog [Lit "Rate limited. Waiting longer before retry..."] (Some "yellow");
       EvSleep 10;
       EvLog [Lit "Retrying... (attempt "; FNat 2; Lit "/"; FNat 3; Lit ")"] (Some "yellow")] /\
    1 < count_if is_request evs /\
    fst (SpotifyAPI.get (net := busy_then_fine) api (JStr "me") [] 3 idle) = Ret me_body.
Proof.
  destruct (get_429_backoff (net := busy_then_fine) api "me" [] 3 1 idle "Too Many Requests")
    as (evs & Htrace & Hsleep & Hretry & Hbody).
  - lia.
  - intros i Hi. lia.
  - reflexivity.
  - exists evs. split; [exact Htrace|]. split; [exact Hsleep|]. split; [apply Hretry; lia|].
    apply (Hbody 2 me_body); [lia | intros i Hi; lia | reflexivity].
Defined.

Lemma get_backoff_after_failure_witness :
  exists evs,
    trace (snd (SpotifyAPI.get (net := unreachable_second) api (JStr "me") [] 3 idle))
      = trace idle ++ evs /\
    after_attempt 2 evs =
      [EvLog [Lit "Network error: "; FStr "timed out"; Lit " for URL: ";
              FStr "https://api.spotify.com/v1/me"] (Some "red");
       EvSleep 4;
       EvLog [Lit "Retrying... (attempt "; FNat 3; Lit "/"; FNat 3; Lit ")"] (Some "yellow")] /\
    2 < count_if is_request evs.
Proof.
  destruct (get_backoff_after_failure (net := unreachable_second) api "me" [] 3 2 idle)
    as (_ & Hnetwork & _).
  - lia.
  - intros i Hi. destruct i; [reflexivity | lia].
  - apply (Hnetwork "timed out"). reflexivity.
Defined.

(** C4 as it was stated fails on a body that is not JSON: the second of
    three attempts sleeps 2 seconds, not [2 * 2]. *)
Lemma garbled_body_sleeps_two_seconds :
  respond (Network := always_garbled) 1 "https://api.spotify.com/v1/me" "Bearer BQDexample"
    = JSONDecodeError "Expecting value" /\
  sleeps (after_attempt 2
            (trace (snd (SpotifyAPI.get (net := always_garbled) api (JStr "me") [] 3 idle))))
    = [2] /\
  sleeps (after_attempt 2
            (trace (snd (SpotifyAPI.get (net := always_garbled) api (JStr "me") [] 3 idle))))
    <> [2 * 2].
Proof.
  split; [reflexivity|]. split; [reflexivity|]. vm_compute. discriminate.
Qed.

Lemma get_exhausted_witness :
  exists w' evs,
    SpotifyAPI.get (net := always_500) api (JStr "me") [] 3 idle = (Raise (SystemExit 1), w') /\
    trace w' = trace idle ++ evs /\
    count_if is_request evs = 3 /\
    last evs = Some (EvLog [Lit "Failed to load URL after "; FNat 3; Lit " attempts: ";
                            FStr "https://api.spotify.com/v1/me"] (Some "red bold")) /\
    after_attempt 3 evs =
      [EvLog [Lit "HTTP error "; FNat 500; Lit ": "; FStr "Internal Server Error";
              Lit " for URL: "; FStr "https://api.spotify.com/v1/me"] (Some "red");
       EvLog [Lit "Failed to load URL after "; FNat 3; Lit " attempts: ";
              FStr "https://api.spotify.com/v1/me"] (Some "red bold")].
Proof.
  apply (get_exhausted (net := always_500) api "me" [] 3 idle).
  - lia.
  - intros i Hi. destruct i as [|[|[|i]]]; reflexivity.
Defined.

(** C8 as it was stated fails: two runs whose last errors differ, a 500 and a
    network error, end with the same line. *)
Lemma terminal_line_ignores_last_error :
  respond (Network := always_500) 2 "https://api.spotify.com/v1/me" "Bearer BQDexample"
    = HTTPError 500 "Internal Server Error" /\
  respond (Network := always_unreachable) 2 "https://api.spotify.com/v1/me"
          "Bearer BQDexample"
    = URLError "timed out" /\
  last (trace (snd (SpotifyAPI.get (net := always_500) api (JStr "me") [] 3 idle))) =
    Some (EvLog [Lit "Failed to load URL after "; FNat 3; Lit " attempts: ";
                 FStr "https://api.spotify.com/v1/me"] (Some "red bold")) /\
  last (trace (snd (SpotifyAPI.get (net := always_unreachable) api (JStr "me") [] 3 idle))) =
    Some (EvLog [Lit "Failed to load URL after "; FNat 3; Lit " attempts: ";
                 FStr "https://api.spotify.com/v1/me"] (Some "red bold")).
Proof. repeat split; reflexivity. Qed.




Lemma empty_access_token_is_captured_witness :
  (exists w',
      SpotifyAPI.authorize "5c098bcc800e45d49e476265bc9b6934" "playlist-read-private"
                           (World 0 0 [InGET "/token?access_token="; InGET "/favicon.ico"] [])
        = (Ret {| SpotifyAPI._auth := "" |}, w') /\
      inbound w' = [InGET "/favicon.ico"]) /\
  (In (EvSendError 400) (new_events idle (snd (SpotifyAPI.do_GET "/token?foo=bar" idle))) /\
   String.prefix "/redirect" "/token?foo=bar" = false /\
   String.prefix "/token?" "/token?foo=bar" = true /\
   ~ substring "access_token=" "/token?foo=bar").
Proof.
  split.
  - apply (proj1 (proj2 empty_access_token_is_captured)). reflexivity.
  - assert (H : In (EvSendError 400)
                   (new_events idle (snd (SpotifyAPI.do_GET "/token?foo=bar" idle))))
      by (vm_compute; tauto).
    split; [exact H|].
    exact (proj1 (proj2 (proj2 empty_access_token_is_captured) "/token?foo=bar" idle) H).
Defined.

Lemma top_sections_need_liked_albums_witness :
  py_len (JArr []) = Ret 0 /\
  trace (snd (write_text [liked_songs] (JArr []) (JArr [top_artist "Miles Davis"]) (JArr [])
                         "medium_term" idle)) =
    [EvWrite [Lit "Playlists: "; Lit CRLF; Lit CRLF];
     EvWrite [FStr "Liked Songs"; Lit CRLF];
     EvWrite [Lit CRLF]].
Proof.
  split; [reflexivity|].
  rewrite (top_sections_need_liked_albums [liked_songs] (JArr [])
             (JArr [top_artist "Miles Davis"]) (JArr []) "medium_term" idle eq_refl).
  reflexivity.
Defined.


(** * More about the script *)

(** ** Rules for [only] *)

Section Only.
Context {A B : Type} (P : event -> Prop).

Lemma only_ret (a : A) : only P (mret a).
Proof. intros w. exists []. rewrite app_nil_r. split; [reflexivity | constructor]. Qed.

Lemma only_lift (r : result A) : only P (lift r).
Proof. intros w. exists []. rewrite app_nil_r. split; [reflexivity | constructor]. Qed.

Lemma only_raise (e : exn) : only P (@raise A e).
Proof. intros w. exists []. rewrite app_nil_r. split; [reflexivity | constructor]. Qed.

Lemma only_diverge : only P (@diverge A).
Proof. intros w. exists []. rewrite app_nil_r. split; [reflexivity | constructor]. Qed.

Lemma only_bind (m : M A) (k : A -> M B) :
  only P m -> (forall a, only P (k a)) -> only P (m ≫= k).
Proof.
  intros Hm Hk w. destruct (Hm w) as (evs & Hevs & HP).
  unfold mbind, M_bind, bind. destruct (m w) as [[a|e|] w1]; cbn [snd] in *; eauto.
  destruct (Hk a w1) as (evs' & Hevs' & HP').
  exists (evs ++ evs'). rewrite Hevs', Hevs, app_assoc. split; [reflexivity|].
  apply Forall_app; auto.
Qed.

Lemma only_try_except (m : M A) (catches : exn -> bool) (h : exn -> M A) :
  only P m -> (forall e, only P (h e)) -> only P (try_except m catches h).
Proof.
  intros Hm Hh w. destruct (Hm w) as (evs & Hevs & HP).
  unfold try_except. destruct (m w) as [[a|e|] w1]; cbn [snd] in *; eauto.
  destruct (catches e); cbn [snd]; eauto.
  destruct (Hh e w1) as (evs' & Hevs' & HP').
  exists (evs ++ evs'). rewrite Hevs', Hevs, app_assoc. split; [reflexivity|].
  apply Forall_app; auto.
Qed.
End Only.

Lemma only_emit (P : event -> Prop) (e : event) : P e -> only P (emit e).
Proof. intros H w. exists [e]. split; [reflexivity | repeat constructor; assumption]. Qed.

Lemma only_try_finally {A} (P : event -> Prop) (m : M A) (fin : M unit) :
  only P m -> only P fin -> only P (try_finally m fin).
Proof.
  intros Hm Hf w. destruct (Hm w) as (evs & Hevs & HP).
  unfold try_finally.
  destruct (m w) as [[a|e|] w1]; cbn [snd] in *; eauto;
    destruct (Hf w1) as (evs' & Hevs' & HP');
    destruct (fin w1) as [[[]|e'|] w2]; cbn [snd] in *;
    exists (evs ++ evs'); rewrite Hevs', Hevs, app_assoc;
    (split; [reflexivity | apply Forall_app; auto]).
Qed.

Lemma only_log_text {con : Console} (P : event -> Prop) message style :
  P (EvLog message style) -> only P (log_text message style).
Proof.
  intros H. unfold log_text. destruct (refuses message); [apply only_raise|].
  apply only_emit. assumption.
Qed.

Lemma only_weaken {A} (P Q : event -> Prop) (m : M A) :
  (forall e, P e -> Q e) -> only P m -> only Q m.
Proof.
  intros HPQ Hm w. destruct (Hm w) as (evs & Hevs & HP).
  exists evs. split; [assumption|]. eapply Forall_impl; eauto.
Qed.

Ltac only_step :=
  lazymatch goal with
  | |- only _ (mbind _ _) => apply only_bind; [|intro]
  | |- only _ (mret _) => apply only_ret
  | |- only _ (ret _) => apply (only_ret _ _)
  | |- only _ (lift _) => apply only_lift
  | |- only _ (raise _) => apply only_raise
  | |- only _ (sys_exit _) => apply only_raise
  | |- only _ diverge => apply only_diverge
  | |- only _ (log_message _ _) => apply only_emit
  | |- only _ (log_text _ _) => apply only_log_text
  | |- only _ (emit _) => apply only_emit
  | |- only _ (f_write _) => apply only_emit
  | |- only _ (when ?b _) => unfold when; destruct b
  | |- only _ (try_except _ _ _) => apply only_try_except; [|intro]
  | |- only _ (try_finally _ _) => apply only_try_finally
  | |- only _ (if ?b then _ else _) => destruct b
  | |- only _ (match ?x with _ => _ end) => destruct x
  end.




(** ** Where the requests go *)




Section Traffic.
Context {net : Network}.
Variables (P : event -> Prop) (self : SpotifyAPI.t).
Hypothesis P_log : forall message style, P (EvLog message style).
Hypothesis P_sleep : forall secs, P (EvSleep secs).
Hypothesis P_progress : P EvProgressAdvance.
Hypothesis P_request :
  forall url, String.prefix SpotifyAPI.API url = true ->
              P (EvRequest url ("Bearer " +:+ SpotifyAPI._auth self)).






Context {con : Console}.





End Traffic.


(** ** The budget of [get] *)





Section Budget.
Context {net : Network}.
Variables (self : SpotifyAPI.t) (u : string) (tries : nat).
Abbreviation hdr := ("Bearer " +:+ SpotifyAPI._auth self).


End Budget.




(** ** Pagination without an end *)

Section Endless.
Context {net : Network}.
Variables (self : SpotifyAPI.t) (body total : json) (items : list json) (next : string).
Hypothesis always : forall n url, respond n url ("Bearer " +:+ SpotifyAPI._auth self) = Body body.
Hypothesis has_items : getitem body "items" = Ret (JArr items).
Hypothesis has_total : getitem body "total" = Ret total.
Hypothesis has_next : getitem body "next" = Ret (JStr next).
Hypothesis next_not_empty : next <> "".

Lemma pages_never_end fuel : forall last acc w,
  fst (SpotifyAPI.pages fuel self last body (JArr acc) w) = Diverge /\
  sent (snd (SpotifyAPI.pages fuel self last body (JArr acc) w)) = sent w + fuel.
Proof.
  induction fuel as [|fuel IH]; intros last acc w; rewrite pages_unfold; run;
    rewrite has_next; cbn [truthy];
    apply String.eqb_neq in next_not_empty; rewrite next_not_empty; cbn [negb negb fst snd].
  - split; [reflexivity | lia].
  - assert (Hget : forall w0, SpotifyAPI.get self (JStr next) [] 3 w0 =
              (Ret body, World (S (sent w0)) (now w0 + latency (sent w0)) (inbound w0)
                               (trace w0 ++ [EvRequest (SpotifyAPI.full_url next [])
                                               ("Bearer " +:+ SpotifyAPI._auth self)]))).
    { intros w0. apply get_answered. intros n. apply always. }
    destruct (last + 15 <? now w); cbn [py_len]; rewrite ?has_total, Hget, has_items;
      cbn [iadd py_iter fst snd sent now inbound trace];
      match goal with |- context [SpotifyAPI.pages fuel self ?l body (JArr ?a) ?w0] =>
        destruct (IH l a w0) as [H1 H2];
        destruct (SpotifyAPI.pages fuel self l body (JArr a) w0) as [[j|e|] w1];
        cbn [fst snd] in *; try discriminate; subst
      end; (split; [reflexivity | cbn [sent] in *; lia]).
Qed.

(** X4.  [list] has no bound on the number of pages: against a remote side
    whose every page names a next page, it never returns.  Whatever number
    of further pages it is allowed, it sends that many requests after the
    first and is still not done. *)
Theorem list_never_ends_when_next_never_does (fuel : nat) (url : string)
        (params : list (string * string)) (w : world) :
  fst (SpotifyAPI.list fuel self (JStr url) params w) = Diverge /\
  sent (snd (SpotifyAPI.list fuel self (JStr url) params w)) = sent w + S fuel.
Proof.
  unfold SpotifyAPI.list. run.
  rewrite (get_answered self url params body) by (intros n; apply always).
  rewrite has_items.
  match goal with |- context [SpotifyAPI.pages fuel self ?l body (JArr ?a) ?w0] =>
    destruct (pages_never_end fuel l a w0) as [H1 H2];
    destruct (SpotifyAPI.pages fuel self l body (JArr a) w0) as [[j|e|] w1];
    cbn [fst snd] in *; try discriminate
  end.
  split; [reflexivity | cbn [sent] in *; lia].
Qed.
End Endless.

(** ** Top items *)

Section TopItemsFacts.
Context {net : Network}.
Variables (fuel : nat) (spotify : SpotifyAPI.t) (item_type time_range : string) (limit : Z).

(** X7.  [get_top_items] lets no exception that derives from [Exception]
    out.  When listing the items raises one, it logs the error and returns
    an empty list; an exception of another kind, such as the [SystemExit] of
    [get], passes through.  (The line that reports the error is taken to be
    printed.) *)
Theorem get_top_items_contains_failures (w : world) :
  let started :=
    World (sent w) (now w) (inbound w)
          (trace w ++ [EvLog [Lit "Loading top "; FStr item_type; Lit " ("; FStr time_range;
                              Lit ", limit="; FVal (JNum limit); Lit ")..."] (Some "cyan")]) in
  let listing :=
    SpotifyAPI.list fuel spotify (JStr ("me/top/" +:+ item_type))
                    [("time_range", time_range); ("limit", str_of_Z limit)] started in
  match fst (get_top_items fuel spotify item_type time_range limit w) with
  | Raise e => is_Exception e = false
  | _ => True
  end /\
  (forall e w1,
      listing = (Raise e, w1) ->
      is_Exception e = true ->
      get_top_items fuel spotify item_type time_range limit w =
      (Ret (JArr []),
       World (sent w1) (now w1) (inbound w1)
             (trace w1 ++ [EvLog [Lit "Error loading top "; FStr item_type; Lit ": "; FExn e]
                                 (Some "red")]))) /\
  (forall e w1,
      listing = (Raise e, w1) ->
      is_Exception e = false ->
      get_top_items fuel spotify item_type time_range limit w = (Raise e, w1)).
Proof.
  cbv zeta. unfold get_top_items, try_except. run.
  destruct (SpotifyAPI.list fuel spotify _ _ _) as [[items|e|] w1].
  - split; [|split; intros; discriminate].
    destruct (py_len items); cbn [is_Exception fst]; auto.
    destruct e; cbn; auto.
  - split; [|split].
    + destruct (is_Exception e) eqn:E; cbn [fst]; auto.
    + intros e' w1' [= <- <-] He. rewrite He. reflexivity.
    + intros e' w1' [= <- <-] He. rewrite He. reflexivity.
  - split; [exact I | split; intros; discriminate].
Qed.
End TopItemsFacts.

(** ** What loading leaves of a playlist *)

Lemma assoc_set_same k x kv : assoc k (assoc_set k x kv) = Some x.
Proof.
  induction kv as [|[k' v] kv IH]; cbn.
  - rewrite String.eqb_refl. reflexivity.
  - destruct (String.eqb k k') eqn:E; cbn; rewrite E; auto.
Qed.

Lemma assoc_set_other k k' x kv : k <> k' -> assoc k (assoc_set k' x kv) = assoc k kv.
Proof.
  intros Hne. induction kv as [|[k'' v] kv IH]; cbn.
  - apply String.eqb_neq in Hne. rewrite Hne. reflexivity.
  - destruct (String.eqb k' k'') eqn:E; cbn.
    + apply String.eqb_eq in E. subst k''.
      apply String.eqb_neq in Hne. rewrite Hne. reflexivity.
    + destruct (String.eqb k k''); auto.
Qed.

(** X8.  When [load_playlist_tracks] returns, the playlist it returns differs
    from the one it was given in its [tracks] at most: every other key has
    the value it had, the name among them. *)
Theorem load_playlist_tracks_keeps_other_fields {net : Network} {con : Console} (fuel : nat)
        (spotify : SpotifyAPI.t) (playlist loaded : json) (w w' : world) :
  load_playlist_tracks fuel spotify playlist w = (Ret loaded, w') ->
  (forall key, key <> "tracks" -> getitem loaded key = getitem playlist key) /\
  (loaded = playlist \/
   exists items, getitem loaded "tracks" = Ret items /\
                 fst (fetch_tracks fuel spotify playlist w) = Ret items).
Proof.
  unfold load_playlist_tracks, try_except, mbind at 1, M_bind at 1, bind at 1.
  destruct (fetch_tracks fuel spotify playlist w) as [[items|e|] w1]; [| |discriminate].
  - unfold lift. destruct playlist as [| | | | |kv]; cbn [setitem is_Exception].
    1-5: run; cbn [getitem]; discriminate.
    intros [= <- <-]. split.
    + intros key Hkey. cbn [getitem]. rewrite assoc_set_other by assumption. reflexivity.
    + right. exists items. cbn [getitem fst]. rewrite assoc_set_same. auto.
  - destruct (is_Exception e); [|discriminate]. unfold log_text. run.
    destruct (getitem playlist "name"); [|discriminate..].
    destruct (refuses _); [discriminate|]. run.
    intros [= <- <-]. auto.
Qed.


(** ** The capture server, further *)



Lemma strip_prefix_append p : forall s rest t,
  SpotifyAPI.strip_prefix p s = Some rest ->
  SpotifyAPI.strip_prefix p (s +:+ t) = Some (rest +:+ t).
Proof.
  intros s rest t H. apply strip_prefix_Some in H. subst s.
  apply strip_prefix_Some. induction p as [|a p IH]; [reflexivity|].
  change (String a p +:+ rest) with (String a (p +:+ rest)).
  change (String a (p +:+ rest) +:+ t) with (String a ((p +:+ rest) +:+ t)).
  rewrite IH. reflexivity.
Qed.

Lemma until_amp_splits s :
  exists more,
    s = SpotifyAPI.until_amp s +:+ more /\
    has_char "&" (SpotifyAPI.until_amp s) = false /\
    (more = "" \/ exists rest, more = "&" +:+ rest).
Proof.
  induction s as [|c s (more & Hs & Hno & Hmore)]; cbn [SpotifyAPI.until_amp].
  - exists "". auto.
  - destruct (Ascii.eqb c "&") eqn:E.
    + apply Ascii.eqb_eq in E. subst c. exists (String "&" s).
      split; [reflexivity|]. split; [reflexivity|]. right. exists s. reflexivity.
    + exists more. split; [|split; [|assumption]].
      * change (String c (SpotifyAPI.until_amp s) +:+ more)
          with (String c (SpotifyAPI.until_amp s +:+ more)).
        rewrite <- Hs. reflexivity.
      * cbn [has_char]. rewrite Ascii.eqb_sym, E. assumption.
Qed.

(** X11.  What the handler takes for the token: the text that follows the
    leftmost [access_token=] in the path, up to the next ampersand or to the
    end.  The token holds no ampersand, and [access_token=] may stand anywhere
    in the path, also inside another parameter. *)
Theorem search_access_token_takes_leftmost (path tok : string) :
  SpotifyAPI.search_access_token path = Some tok ->
  exists before more,
    path = before +:+ "access_token=" +:+ tok +:+ more /\
    has_char "&" tok = false /\
    (more = "" \/ exists rest, more = "&" +:+ rest) /\
    SpotifyAPI.search_access_token (before +:+ "access_token") = None.
Proof.
  revert tok. induction path as [|c path IH]; intros tok H.
  - cbn in H. discriminate.
  - cbn [SpotifyAPI.search_access_token] in H.
    destruct (SpotifyAPI.strip_prefix "access_token=" (String c path)) as [rest|] eqn:E.
    + injection H as <-. apply strip_prefix_Some in E.
      destruct (until_amp_splits rest) as (more & Hrest & Hno & Hmore).
      exists "", more. split; [|split; [assumption | split; [assumption | reflexivity]]].
      rewrite E. change ("" +:+ "access_token=" +:+ SpotifyAPI.until_amp rest +:+ more)
        with ("access_token=" +:+ (SpotifyAPI.until_amp rest +:+ more)).
      rewrite <- Hrest. reflexivity.
    + destruct (IH tok H) as (before & more & Hpath & Hno & Hmore & Hleft).
      exists (String c before), more.
      split; [rewrite Hpath; reflexivity|]. split; [assumption|]. split; [assumption|].
      change (String c before +:+ "access_token") with (String c (before +:+ "access_token")).
      cbn [SpotifyAPI.search_access_token]. rewrite Hleft.
      destruct (SpotifyAPI.strip_prefix "access_token=" (String c (before +:+ "access_token")))
        as [r|] eqn:E'; [|reflexivity].
      exfalso.
      apply (strip_prefix_append _ _ _ ("=" +:+ tok +:+ more)) in E'.
      assert (Hsame : String c (before +:+ "access_token") +:+ "=" +:+ tok +:+ more
                      = String c path).
      { rewrite Hpath.
        change (String c (before +:+ "access_token") +:+ "=" +:+ tok +:+ more)
          with (String c ((before +:+ "access_token") +:+ "=" +:+ tok +:+ more)).
        f_equal. clear. induction before as [|b before IH]; [reflexivity|].
        change (String b before +:+ "access_token") with (String b (before +:+ "access_token")).
        change (String b (before +:+ "access_token") +:+ "=" +:+ tok +:+ more)
          with (String b ((before +:+ "access_token") +:+ "=" +:+ tok +:+ more)).
        rewrite IH. reflexivity. }
      rewrite Hsame in E'. congruence.
Qed.

(** ** The text writer and a playlist that was not loaded *)


(** ** The text writer and a playlist that was not loaded *)

Lemma for_each_stops {A} (body : A -> M unit) (l : list A) :
  Exists (fun x => forall w, fst (body x w) <> Ret tt) l ->
  forall w, fst (for_each l body w) <> Ret tt.
Proof.
  induction l as [|x l IH]; intros H w; inversion H as [? ? Hx|? ? Hl]; subst;
    cbn [for_each]; unfold mbind, M_bind, bind.
  - specialize (Hx w). destruct (body x w) as [[[]|e|] w1]; cbn [fst] in *; congruence.
  - destruct (body x w) as [[[]|e|] w1]; cbn [fst]; try congruence. apply IH. assumption.
Qed.

Lemma write_playlist_unresolved playlist w :
  unresolved playlist -> fst (write_playlist playlist w) <> Ret tt.
Proof.
  intros (key & value & rest & Htracks). unfold write_playlist.
  unfold mbind, M_bind, bind, lift.
  destruct (getitem playlist "name") as [name|e|]; cbn [fst]; try congruence.
  destruct name; cbn [raise fst]; try congruence.
  run. rewrite Htracks. cbn [py_iter map for_each fst].
  unfold write_playlist_track, mbind, M_bind, bind, lift. cbn [getitem fst]. congruence.
Qed.

(** X12.  A playlist whose tracks were not loaded stops the text writer: as
    soon as one playlist still has the reference in place of its tracks,
    [write_text] does not get to the end of the file. *)
Theorem text_writer_needs_loaded_tracks (playlists : list json)
        (liked_albums top_artists top_tracks : json) (time_range : string) (w : world) :
  Exists unresolved playlists ->
  fst (write_text playlists liked_albums top_artists top_tracks time_range w) <> Ret tt.
Proof.
  intros H.
  assert (Hstop : forall w0, fst (for_each playlists write_playlist w0) <> Ret tt).
  { apply for_each_stops. induction H as [p l Hp|p l _ IH]; [left | right; exact IH].
    intros w0. apply write_playlist_unresolved. exact Hp. }
  unfold write_text. run.
  match goal with |- context [for_each playlists write_playlist ?w0] =>
    specialize (Hstop w0);
    destruct (for_each playlists write_playlist w0) as [[[]|e|] w1]
  end; cbn [fst] in *; congruence.
Qed.


(** ** The first part of [main] *)

Lemma has_char_append c s t : has_char c (s +:+ String c t) = true.
Proof.
  induction s as [|b s IH].
  - change ("" +:+ String c t) with (String c t). cbn [has_char].
    rewrite Ascii.eqb_refl. reflexivity.
  - change (String b s +:+ String c t) with (String b (s +:+ String c t)).
    cbn [has_char]. rewrite IH. destruct (Ascii.eqb c b); reflexivity.
Qed.

Lemma after_last_dot_extension stem ext :
  has_char "." ext = false -> after_last_dot (stem +:+ "." +:+ ext) = ext.
Proof.
  intros Hext. change ("." +:+ ext) with (String "." ext).
  induction stem as [|c stem IH].
  - change ("" +:+ String "." ext) with (String "." ext).
    cbn [after_last_dot]. rewrite Hext, Ascii.eqb_refl. reflexivity.
  - change (String c stem +:+ String "." ext) with (String c (stem +:+ String "." ext)).
    cbn [after_last_dot]. rewrite has_char_append. exact IH.
Qed.

Lemma after_last_dot_no_dot name : has_char "." name = false -> after_last_dot name = name.
Proof.
  destruct name as [|c name]; [reflexivity|]. cbn [has_char after_last_dot].
  rewrite (Ascii.eqb_sym c "."%char).
  destruct (Ascii.eqb "." c); [discriminate|]. intros ->. reflexivity.
Qed.

(** X15.  When a file name is given, the format is read off the name and the
    [--format] option plays no part: the export is JSON when the text after
    the last dot of the name, or the whole name when it has no dot, is [json]
    in upper or lower case, and text when it is [txt]; for any other ending
    [main] warns and the export is text, unless the console refuses the
    warning, which carries the ending: then [main] ends with the exception of
    the console. *)
Theorem output_format_follows_the_file_name {con : Console} (timestamp : string)
        (a : Main.args) (w : world) :
  (forall stem ext,
      Main.file a = Some (stem +:+ "." +:+ ext) ->
      has_char "." ext = false ->
      fst (Main.resolve_output timestamp a w) =
      if String.eqb (lower ext) "json" then Ret (stem +:+ "." +:+ ext, "json")
      else if String.eqb (lower ext) "txt" then Ret (stem +:+ "." +:+ ext, "txt")
      else match refuses [Lit "Unknown file extension "; Lit DQUOTE; FStr (lower ext);
                          Lit DQUOTE; Lit ", defaulting to txt format"] with
           | None => Ret (stem +:+ "." +:+ ext, "txt")
           | Some e => Raise e
           end) /\
  (forall name,
      Main.file a = Some name ->
      name <> "" ->
      has_char "." name = false ->
      fst (Main.resolve_output timestamp a w) =
      if String.eqb (lower name) "json" then Ret (name, "json")
      else if String.eqb (lower name) "txt" then Ret (name, "txt")
      else match refuses [Lit "Unknown file extension "; Lit DQUOTE; FStr (lower name);
                          Lit DQUOTE; Lit ", defaulting to txt format"] with
           | None => Ret (name, "txt")
           | Some e => Raise e
           end).
Proof.
  split.
  - intros stem ext Hfile Hext. unfold Main.resolve_output. rewrite Hfile.
    rewrite after_last_dot_extension by assumption.
    assert (Hne : exists c s, stem +:+ "." +:+ ext = String c s).
    { destruct stem; eexists _, _; reflexivity. }
    destruct Hne as (c & s & ->).
    destruct (String.eqb (lower ext) "json") eqn:Ej; [apply String.eqb_eq in Ej; rewrite Ej|];
      cbn [orb]; [reflexivity|].
    destruct (String.eqb (lower ext) "txt") eqn:Et; [apply String.eqb_eq in Et; rewrite Et|];
      [reflexivity|].
    unfold log_text. destruct (refuses _); reflexivity.
  - intros name Hfile Hne Hdot. unfold Main.resolve_output. rewrite Hfile.
    rewrite after_last_dot_no_dot by assumption.
    destruct name as [|c s]; [congruence|].
    destruct (String.eqb (lower (String c s)) "json") eqn:Ej;
      [apply String.eqb_eq in Ej; rewrite Ej|]; cbn [orb]; [reflexivity|].
    destruct (String.eqb (lower (String c s)) "txt") eqn:Et;
      [apply String.eqb_eq in Et; rewrite Et|]; [reflexivity|].
    unfold log_text. destruct (refuses _); reflexivity.
Qed.





Section MainTraffic.
Context {net : Network} {con : Console}.
Variables (P : event -> Prop) (self : SpotifyAPI.t) (py_str : json -> string).
Hypothesis P_log : forall message style, P (EvLog message style).
Hypothesis P_sleep : forall secs, P (EvSleep secs).
Hypothesis P_progress : P EvProgressAdvance.
Hypothesis P_request :
  forall url, String.prefix SpotifyAPI.API url = true ->
              P (EvRequest url ("Bearer " +:+ SpotifyAPI._auth self)).

End MainTraffic.



Lemma bind_returns {A B} (m : M A) (k : A -> M B) w b w' :
  (m ≫= k) w = (Ret b, w') -> exists a w1, m w = (Ret a, w1) /\ k a w1 = (Ret b, w').
Proof.
  unfold mbind, M_bind, bind. destruct (m w) as [[a|e|] w1]; try discriminate. eauto.
Qed.

(** X18.  When liked songs are dumped, the playlist that [main] puts first is
    the one it makes up for them, named [Liked Songs]; the playlists of the
    user follow it. *)
Theorem liked_songs_come_first {net : Network} {con : Console} (py_str : json -> string)
        (rich : bool) (timestamp : string) (completion : list nat) (fuel : nat)
        (a : Main.args) (w w' : world) (b : Main.backup) :
  str_in "liked" (Main.dump a) = true ->
  Main.gather py_str rich timestamp completion fuel a w = (Ret b, w') ->
  exists tracks rest,
    Main.playlists b = JObj [("name", JStr "Liked Songs"); ("tracks", tracks)] :: rest.
Proof.
  intros Hliked Hrun. unfold Main.gather in Hrun.
  repeat (apply bind_returns in Hrun as (? & ? & ? & Hrun)).
  injection Hrun as <- _.
  cbn [Main.playlists].
  match goal with H : Main.load_liked _ _ _ _ = _ |- _ =>
    unfold Main.load_liked in H; rewrite Hliked in H;
    repeat (apply bind_returns in H as (? & ? & ? & H)); injection H as <- _
  end.
  match goal with H : Main.load_playlists _ _ _ _ _ _ _ _ _ = _ |- _ =>
    unfold Main.load_playlists in H; cbn [fst] in H;
    destruct (str_in "playlists" (Main.dump a));
    [repeat (apply bind_returns in H as (? & ? & ? & H))|]; injection H as <- _
  end; cbn [app]; eauto.
Qed.


(** ** Pages that lack a key *)

Section MalformedPages.
Context {net : Network}.
Variables (self : SpotifyAPI.t) (url : string) (params : list (string * string)).
Variable (body : json).
Hypothesis answered :
  forall n, respond n (SpotifyAPI.full_url url params) ("Bearer " +:+ SpotifyAPI._auth self)
            = Body body.

(** X5.  [list] reads [items] and [next] of the first page without checking
    that they are there: a first page without [items], or with [items] but
    without [next], makes it raise [KeyError] for that key after its one
    request. *)
Theorem list_needs_items_and_next (fuel : nat) (w : world) :
  (getitem body "items" = Raise (KeyError "items") ->
   fst (SpotifyAPI.list fuel self (JStr url) params w) = Raise (KeyError "items") /\
   sent (snd (SpotifyAPI.list fuel self (JStr url) params w)) = sent w + 1) /\
  (forall items,
      getitem body "items" = Ret items ->
      getitem body "next" = Raise (KeyError "next") ->
      fst (SpotifyAPI.list fuel self (JStr url) params w) = Raise (KeyError "next") /\
      sent (snd (SpotifyAPI.list fuel self (JStr url) params w)) = sent w + 1).
Proof.
  split.
  - intros Hitems. unfold SpotifyAPI.list. run.
    rewrite (get_answered self url params body) by assumption.
    rewrite Hitems. cbn [fst snd sent]. split; [reflexivity | lia].
  - intros items Hitems Hnext. unfold SpotifyAPI.list. run.
    rewrite (get_answered self url params body) by assumption.
    rewrite Hitems, pages_unfold. run. rewrite Hnext. cbn [fst snd sent].
    split; [reflexivity | lia].
Qed.
End MalformedPages.

Section MissingTotal.
Context {net : Network}.
Variables (self : SpotifyAPI.t) (url : string) (params : list (string * string)).
Variables (first second : json) (items more : list json) (next : string).
Abbreviation hdr := ("Bearer " +:+ SpotifyAPI._auth self).
Hypothesis first_answer : forall n, respond n (SpotifyAPI.full_url url params) hdr = Body first.
Hypothesis second_answer : forall n, respond n next hdr = Body second.
Hypothesis first_items : getitem first "items" = Ret (JArr items).
Hypothesis first_next : getitem first "next" = Ret (JStr next).
Hypothesis first_total : getitem first "total" = Raise (KeyError "total").
Hypothesis next_under_api : String.prefix SpotifyAPI.API next = true.
Hypothesis next_not_empty : next <> "".
Hypothesis second_items : getitem second "items" = Ret (JArr more).
Hypothesis second_next : getitem second "next" = Ret JNull.

(** X6.  [list] reads [total] only for its progress line, which it writes
    when more than 15 seconds have passed since the last one.  So a page
    without [total] does no harm when the request for it took 15 seconds or
    less, and makes [list] raise [KeyError('total')] when it took longer. *)
Theorem missing_total_matters_only_when_slow (fuel : nat) (w : world) :
  (latency (sent w) <= 15 ->
   fst (SpotifyAPI.list (S fuel) self (JStr url) params w) = Ret (JArr (items ++ more))) /\
  (15 < latency (sent w) ->
   fst (SpotifyAPI.list (S fuel) self (JStr url) params w) = Raise (KeyError "total")).
Proof.
  assert (Hget2 : forall w0, SpotifyAPI.get self (JStr next) [] 3 w0 =
            (Ret second, World (S (sent w0)) (now w0 + latency (sent w0)) (inbound w0)
                               (trace w0 ++ [EvRequest (SpotifyAPI.full_url next []) hdr]))).
  { intros w0. apply get_answered. intros n. rewrite full_url_next by assumption.
    apply second_answer. }
  apply String.eqb_neq in next_not_empty.
  split; intros Hslow; unfold SpotifyAPI.list; run;
    rewrite (get_answered self url params first) by assumption;
    rewrite first_items, pages_unfold; run; rewrite first_next; cbn [truthy];
    rewrite next_not_empty; cbn [negb now].
  - replace (now w + 15 <? now w + latency (sent w)) with false
      by (symmetry; apply Nat.ltb_ge; lia).
    rewrite Hget2, second_items. cbn [iadd py_iter]. rewrite pages_unfold. run.
    rewrite second_next. reflexivity.
  - replace (now w + 15 <? now w + latency (sent w)) with true
      by (symmetry; apply Nat.ltb_lt; lia).
    cbn [py_len]. rewrite first_total. reflexivity.
Qed.
End MissingTotal.

(** ** What loading a batch leaves alone *)


(** ** What loading a batch leaves alone *)

Lemma same_but_tracks_refl playlist : same_but_tracks playlist playlist.
Proof. intros key _. reflexivity. Qed.

Lemma same_but_tracks_trans p q r :
  same_but_tracks p q -> same_but_tracks q r -> same_but_tracks p r.
Proof. intros H1 H2 key Hkey. rewrite H2, H1 by assumption. reflexivity. Qed.

Section BatchShape.
Context {net : Network} {con : Console}.
Variables (fuel : nat) (spotify : SpotifyAPI.t).

Lemma task_changes_tracks_only playlist loaded w w' :
  load_playlist_tracks fuel spotify playlist w = (Ret loaded, w') ->
  same_but_tracks playlist loaded.
Proof.
  unfold load_playlist_tracks, try_except, mbind at 1, M_bind at 1, bind at 1.
  destruct (fetch_tracks fuel spotify playlist w) as [[items|e|] w1]; [| |discriminate].
  - unfold lift. destruct playlist as [| | | | |kv]; cbn [setitem is_Exception].
    1-5: run; cbn [getitem]; discriminate.
    intros [= <- <-] key Hkey. cbn [getitem].
    rewrite assoc_set_other by assumption. reflexivity.
  - destruct (is_Exception e); [|discriminate]. unfold log_text. run.
    destruct (getitem playlist "name"); [|discriminate..].
    destruct (refuses _); [discriminate|]. run.
    intros [= <- <-]. apply same_but_tracks_refl.
Qed.

Lemma pool_changes_tracks_only completion : forall current loaded w w',
  load_in_pool fuel spotify completion current w = (Ret loaded, w') ->
  Forall2 same_but_tracks current loaded.
Proof.
  induction completion as [|i completion IH]; intros current loaded w w' Hrun;
    cbn [load_in_pool] in Hrun.
  - injection Hrun as <- _. apply Forall2_same_length_lookup. split; [reflexivity|].
    intros j p q Hp Hq. rewrite Hp in Hq. injection Hq as <-. apply same_but_tracks_refl.
  - destruct (current !! i) as [p|] eqn:Hi; [|eauto].
    destruct (load_playlist_tracks fuel spotify p w) as [[p'|e|] w1] eqn:Htask;
      [| |discriminate].
    2: { revert Hrun. unfold mbind, M_bind, bind, raise.
         destruct (drain fuel spotify completion current w1) as [[[]|e'|] w2]; discriminate. }
    revert Hrun. run. intros Hrun. apply IH in Hrun.
    apply task_changes_tracks_only in Htask.
    apply Forall2_same_length_lookup. apply Forall2_same_length_lookup in Hrun as [Hlen Hall].
    rewrite length_insert in Hlen. split; [assumption|].
    intros j q r Hq Hr. destruct (decide (j = i)) as [->|Hne].
    + rewrite Hi in Hq. injection Hq as <-.
      eapply same_but_tracks_trans; [exact Htask|].
      eapply Hall; [|exact Hr]. apply list_lookup_insert_eq. eapply lookup_lt_Some; eassumption.
    + eapply Hall; [|exact Hr]. rewrite list_lookup_insert_ne by congruence. assumption.
Qed.

(** X9.  Loading a batch touches nothing but the tracks.  Whenever the pool,
    for any order and any number of completions, or the loop of the fallback
    returns, it returns as many playlists as it was given, in the same
    order, and each one has under every key other than [tracks] the value it
    had before. *)
Theorem loading_changes_tracks_only (completion : list nat) (playlist_data loaded : list json)
        (w w' : world) :
  load_in_pool fuel spotify completion playlist_data w = (Ret loaded, w') \/
  load_sequentially fuel spotify playlist_data w = (Ret loaded, w') ->
  Forall2 same_but_tracks playlist_data loaded.
Proof.
  intros [Hpool|Hseq]; [eapply pool_changes_tracks_only; eassumption|].
  revert loaded w w' Hseq. induction playlist_data as [|p rest IH]; intros loaded w w' Hseq;
    cbn [load_sequentially] in Hseq.
  - injection Hseq as <- _. constructor.
  - apply bind_returns in Hseq as (p' & w1 & Htask & Hseq).
    apply bind_returns in Hseq as (rest' & w2 & Hrest & Hseq).
    injection Hseq as <- _.
    constructor; [eapply task_changes_tracks_only; eassumption | eapply IH; eassumption].
Qed.
End BatchShape.

(** ** The lines of the text file *)

Lemma for_each_skips {A} (body : A -> M unit) (x : A) (l1 l2 : list A) :
  (forall w, body x w = (Ret tt, w)) ->
  forall w, for_each (l1 ++ x :: l2) body w = for_each (l1 ++ l2) body w.
Proof.
  intros Hx. induction l1 as [|y l1 IH]; intros w; cbn [app for_each].
  - unfold mbind, M_bind, bind. rewrite Hx. reflexivity.
  - unfold mbind, M_bind, bind. destruct (body y w) as [[[]|e|] w1]; auto.
Qed.

(** X13.  An entry of a playlist whose [track] is [null] leaves no trace in
    the text file: the writer writes the playlist as if the entry were not
    in its list of tracks. *)
Theorem text_writer_skips_null_tracks (playlist shorter entry : json) (before after : list json)
        (w : world) :
  getitem entry "track" = Ret JNull ->
  getitem playlist "name" = getitem shorter "name" ->
  getitem playlist "tracks" = Ret (JArr (before ++ entry :: after)) ->
  getitem shorter "tracks" = Ret (JArr (before ++ after)) ->
  write_playlist playlist w = write_playlist shorter w.
Proof.
  intros Hentry Hname Htracks Hshorter. unfold write_playlist.
  cbv [mbind M_bind bind lift]. rewrite Hname, Htracks, Hshorter.
  destruct (getitem shorter "name") as [name|e|]; [|reflexivity..].
  destruct (match name with JStr s => f_write [FStr s; Lit CRLF] | _ => raise TypeError end w)
    as [[[]|e|] w1]; [|reflexivity..].
  cbn [py_iter]. rewrite for_each_skips; [reflexivity|].
  intros w0. unfold write_playlist_track. run. rewrite Hentry. reflexivity.
Qed.

(** X14.  Every chunk the text writer writes ends with CR LF, and writing is
    all it does: whatever the data, and also when it stops halfway, the file
    holds whole lines only. *)
Theorem text_writer_writes_whole_lines (playlists : list json)
        (liked_albums top_artists top_tracks : json) (time_range : string) :
  only (fun e => ends_line e /\ exists chunk, e = EvWrite chunk)
       (write_text playlists liked_albums top_artists top_tracks time_range).
Proof.
  assert (Hall : forall A (l : list A) (body : A -> M unit) P,
             (forall x, only P (body x)) -> only P (for_each l body)).
  { intros A l body P H. induction l; cbn [for_each]; repeat only_step; auto. }
  assert (Hfrom : forall A (l : list A) (body : nat -> A -> M unit) P n,
             (forall i x, only P (body i x)) -> only P (for_each_from n l body)).
  { intros A l body P n H. revert n. induction l; intros n; cbn [for_each_from];
      repeat only_step; auto. }
  assert (Hcomp : forall A B (l : list A) (f : A -> M B) P,
             (forall x, only P (f x)) -> only P (comprehension f l)).
  { intros A B l f P H. induction l; cbn [comprehension]; repeat only_step; auto. }
  assert (Hnames : forall artists P, only P (artist_names artists)).
  { intros artists P. unfold artist_names. repeat only_step.
    apply Hcomp. intros x. only_step. }
  unfold write_text, top_heading.
  repeat first [ only_step
               | apply Hall; intro
               | apply Hfrom; intros ? ?
               | apply Hnames
               | progress unfold write_playlist, write_playlist_track, write_liked_album,
                   write_top_artist, write_top_track ];
    (split; [reflexivity | eexists; reflexivity]).
Qed.

(** ** The properties above on the sample runs *)

Lemma list_never_ends_when_next_never_does_witness :
  fst (SpotifyAPI.list (net := endless) 7 api (JStr "me/tracks") [("limit", "2")] idle)
    = Diverge /\
  sent (snd (SpotifyAPI.list (net := endless) 7 api (JStr "me/tracks") [("limit", "2")] idle))
    = 8.
Proof.
  apply (list_never_ends_when_next_never_does (net := endless) api endless_page (JNum 1000)
           [sample_track "a"] second_page).
  - intros n url. destruct n; reflexivity.
  - reflexivity.
  - reflexivity.
  - reflexivity.
  - discriminate.
Defined.

Lemma list_needs_items_and_next_witness :
  (fst (SpotifyAPI.list (net := no_items) 3 api (JStr "me/tracks") [] idle)
     = Raise (KeyError "items") /\
   sent (snd (SpotifyAPI.list (net := no_items) 3 api (JStr "me/tracks") [] idle)) = 1) /\
  (fst (SpotifyAPI.list (net := no_next) 3 api (JStr "me/tracks") [] idle)
     = Raise (KeyError "next") /\
   sent (snd (SpotifyAPI.list (net := no_next) 3 api (JStr "me/tracks") [] idle)) = 1).
Proof.
  split.
  - apply (list_needs_items_and_next (net := no_items) api "me/tracks" [] error_body).
    + intros n. destruct n; reflexivity.
    + reflexivity.
  - apply (list_needs_items_and_next (net := no_next) api "me/tracks" [] items_only)
      with (items := JArr [sample_track "a"]).
    + intros n. destruct n; reflexivity.
    + reflexivity.
    + reflexivity.
Defined.

Lemma missing_total_matters_only_when_slow_witness :
  fst (SpotifyAPI.list (net := without_total 1) 4 api (JStr "me/tracks") [("limit", "2")] idle)
    = Ret (JArr [sample_track "a"; sample_track "b"; sample_track "c"]) /\
  fst (SpotifyAPI.list (net := without_total 20) 4 api (JStr "me/tracks") [("limit", "2")] idle)
    = Raise (KeyError "total").
Proof.
  split.
  - apply (missing_total_matters_only_when_slow (net := without_total 1) api "me/tracks"
             [("limit", "2")] first_without_total last_without_total
             [sample_track "a"; sample_track "b"] [sample_track "c"] second_page);
      first [ intros n; reflexivity | reflexivity | discriminate | cbn; lia ].
  - apply (missing_total_matters_only_when_slow (net := without_total 20) api "me/tracks"
             [("limit", "2")] first_without_total last_without_total
             [sample_track "a"; sample_track "b"] [sample_track "c"] second_page);
      first [ intros n; reflexivity | reflexivity | discriminate | cbn; lia ].
Defined.

Lemma get_top_items_contains_failures_witness :
  fst (get_top_items (net := no_items) 3 api "artists" "medium_term" 50 idle) = Ret (JArr []) /\
  fst (get_top_items (net := always_500) 3 api "artists" "medium_term" 50 idle)
    = Raise (SystemExit 1).
Proof.
  split.
  - destruct (get_top_items_contains_failures (net := no_items) 3 api "artists" "medium_term"
                50 idle) as (_ & Hcaught & _).
    match type of Hcaught with
    | forall e w1, ?listing = _ -> _ =>
        rewrite (Hcaught (KeyError "items") (snd listing))
    end; [reflexivity | vm_compute; reflexivity | reflexivity].
  - destruct (get_top_items_contains_failures (net := always_500) 3 api "artists"
                "medium_term" 50 idle) as (_ & _ & Hpassed).
    match type of Hpassed with
    | forall e w1, ?listing = _ -> _ =>
        rewrite (Hpassed (SystemExit 1) (snd listing))
    end; [reflexivity | vm_compute; reflexivity | reflexivity].
Defined.

Lemma load_playlist_tracks_keeps_other_fields_witness :
  (forall key,
      key <> "tracks" ->
      getitem (JObj [("name", JStr "Morning");
                     ("tracks", JArr [sample_track "a"; sample_track "b"])]) key
        = getitem (sample_playlist "Morning" "p1" 2) key) /\
  (JObj [("name", JStr "Morning"); ("tracks", JArr [sample_track "a"; sample_track "b"])]
     = sample_playlist "Morning" "p1" 2 \/
   exists items,
     getitem (JObj [("name", JStr "Morning");
                    ("tracks", JArr [sample_track "a"; sample_track "b"])]) "tracks"
       = Ret items /\
     fst (fetch_tracks (net := one_malformed) (con := prints_all) 5 api
            (sample_playlist "Morning" "p1" 2) idle)
       = Ret items).
Proof.
  apply (load_playlist_tracks_keeps_other_fields (net := one_malformed) (con := prints_all)
           5 api
           (sample_playlist "Morning" "p1" 2)
           (JObj [("name", JStr "Morning");
                  ("tracks", JArr [sample_track "a"; sample_track "b"])])
           idle
           (snd (load_playlist_tracks (net := one_malformed) (con := prints_all) 5 api
                   (sample_playlist "Morning" "p1" 2) idle))).
  vm_compute. reflexivity.
Defined.

Lemma loading_changes_tracks_only_witness :
  Forall2 same_but_tracks three_playlists
          [JObj [("name", JStr "Morning");
                 ("tracks", JArr [sample_track "a"; sample_track "b"])];
           sample_playlist "Broken" "p2" 7;
           JObj [("name", JStr "Evening"); ("tracks", JArr [sample_track "z"])]].
Proof.
  apply (loading_changes_tracks_only (net := one_malformed) (con := prints_all) 5 api
           [2; 0; 1] three_playlists _ idle
           (snd (load_in_pool (net := one_malformed) (con := prints_all) 5 api [2; 0; 1]
                   three_playlists idle))).
  left. vm_compute. reflexivity.
Defined.


Lemma search_access_token_takes_leftmost_witness :
  exists before more,
    "/token?my_access_token=a&access_token=b" = before +:+ "access_token=" +:+ "a" +:+ more /\
    has_char "&" "a" = false /\
    (more = "" \/ exists rest, more = "&" +:+ rest) /\
    SpotifyAPI.search_access_token (before +:+ "access_token") = None.
Proof.
  apply (search_access_token_takes_leftmost "/token?my_access_token=a&access_token=b" "a").
  reflexivity.
Defined.

Lemma text_writer_needs_loaded_tracks_witness :
  fst (write_text three_playlists (JArr []) (JArr []) (JArr []) "medium_term" idle) <> Ret tt.
Proof.
  apply (text_writer_needs_loaded_tracks three_playlists (JArr []) (JArr []) (JArr [])
           "medium_term" idle).
  constructor. eexists _, _, _. reflexivity.
Defined.

Lemma text_writer_skips_null_tracks_witness :
  write_playlist with_removed_track idle = write_playlist without_removed_track idle.
Proof.
  apply (text_writer_skips_null_tracks with_removed_track without_removed_track removed_track
           [sample_track "a"] [sample_track "b"] idle); reflexivity.
Defined.

Lemma output_format_follows_the_file_name_witness :
  fst (Main.resolve_output (con := ascii_only) "20240101-120000"
         (sample_args None "playlists" 50 (Some "backup.v2.JSON")) idle)
    = Ret ("backup.v2.JSON", "json") /\
  fst (Main.resolve_output (con := ascii_only) "20240101-120000"
         (sample_args None "playlists" 50 (Some "backup")) idle)
    = Ret ("backup", "txt").
Proof.
  split.
  - apply (proj1 (output_format_follows_the_file_name (con := ascii_only) "20240101-120000"
                    (sample_args None "playlists" 50 (Some "backup.v2.JSON")) idle)
             "backup.v2" "JSON"); reflexivity.
  - apply (proj2 (output_format_follows_the_file_name (con := ascii_only) "20240101-120000"
                    (sample_args None "playlists" 50 (Some "backup")) idle) "backup");
      [reflexivity | discriminate | reflexivity].
Defined.



Lemma liked_songs_come_first_witness :
  exists tracks rest,
    [JObj [("name", JStr "Liked Songs"); ("tracks", JArr [sample_track "liked"])];
     JObj [("name", JStr "Morning"); ("tracks", JArr [sample_track "a"; sample_track "b"])]]
    = JObj [("name", JStr "Liked Songs"); ("tracks", tracks)] :: rest.
Proof.
  apply (liked_songs_come_first (net := account) (con := prints_all) sample_str true
           "20240101-120000" [0] 5
           (sample_args (Some sample_token) "playlists,liked" 50 (Some "backup.json")) idle
           (snd (Main.gather (net := account) (con := prints_all) sample_str true
                   "20240101-120000" [0] 5
                   (sample_args (Some sample_token) "playlists,liked" 50 (Some "backup.json"))
                   idle))
           (Main.Backup "backup.json" "json"
              [JObj [("name", JStr "Liked Songs"); ("tracks", JArr [sample_track "liked"])];
               JObj [("name", JStr "Morning");
                     ("tracks", JArr [sample_track "a"; sample_track "b"])]]
              (JArr []) (JArr []) (JArr []))).
  - reflexivity.
  - vm_compute. reflexivity.
Defined.
